(** * GAN training utilities: a shallow embedding of
      [implementation/generative_models/utils.py]

    The file models the numerical helpers of the module:
    - the n-dimensional arrays of numpy / the Keras backend, as a shape
      together with the row-major list of entries;
    - the backend operations used by [MinibatchDiscrimination.call]
      ([K.dot], [K.reshape], [K.expand_dims], [K.permute_dimensions],
      broadcasting subtraction, [K.abs], [K.exp], [K.sum]);
    - the layer itself ([__init__], [call], [compute_output_shape]);
    - [split_data] and [clip_weights];
    - the other helpers: [set_model_trainable], [wasserstein_loss], the
      plotting functions, [load_resized_mnist], and the layer's [build]
      and [get_config].

    Array entries are elements of an abstract scalar type carrying the
    arithmetic of the backend.  It is instantiated with the real numbers for
    the statements of exact arithmetic, and with the IEEE 754 binary32
    numbers (module [F32]) for the statements that depend on rounding,
    overflow and NaN. *)

From Stdlib Require Import List Arith ZArith Lia Bool Reals Lra.
From Stdlib Require Import SpecFloat.
From Stdlib Require String.
Import ListNotations.

Set Implicit Arguments.

(** ** Python results: a value or a raised exception *)

Inductive exn : Type :=
| AssertionError
| AttributeError
| IndexError
| ValueError.

Inductive result (A : Type) : Type :=
| Ok (a : A)
| Raise (e : exn).

Arguments Ok {A} a.
Arguments Raise {A} e.

Definition bind {A B : Type} (c : result A) (k : A -> result B) : result B :=
  match c with
  | Ok a => k a
  | Raise e => Raise e
  end.

Notation "x <- c ;; k" := (bind c (fun x => k))
  (at level 61, c at next level, right associativity).

(** ** Scalars: the arithmetic the backend applies entrywise *)

Class Scalar (A : Type) : Type := {
  zero : A;
  add : A -> A -> A;
  sub : A -> A -> A;
  mul : A -> A -> A;
  neg : A -> A;
  sabs : A -> A;
  sexp : A -> A
}.

(** ** N-dimensional arrays *)

Record tensor (A : Type) : Type := mkTensor {
  shape : list nat;
  data : list A
}.

Arguments mkTensor {A} shape data.

(** Number of entries of an array of shape [s] ([np.prod]). *)
Definition size (s : list nat) : nat := fold_right Nat.mul 1 s.

(** An array is well formed when it stores one entry per index. *)
Definition wf {A : Type} (t : tensor A) : Prop :=
  length (data t) = size (shape t).

(** A multi-index is in range when it has one coordinate per axis, each
    below the extent of its axis. *)
Definition in_range (idx s : list nat) : Prop := Forall2 lt idx s.

(** Row-major position of a multi-index, and its inverse. *)
Fixpoint ravel (s idx : list nat) : nat :=
  match s, idx with
  | _ :: s', i :: idx' => i * size s' + ravel s' idx'
  | _, _ => 0
  end.

Fixpoint unravel (s : list nat) (i : nat) : list nat :=
  match s with
  | [] => []
  | _ :: s' => (i / size s') :: unravel s' (i mod size s')
  end.

Definition insert_at {X : Type} (ax : nat) (v : X) (l : list X) : list X :=
  firstn ax l ++ v :: skipn ax l.

Definition remove_at {X : Type} (ax : nat) (l : list X) : list X :=
  firstn ax l ++ skipn (S ax) l.

Definition replace_at {X : Type} (ax : nat) (v : X) (l : list X) : list X :=
  firstn ax l ++ v :: skipn (S ax) l.

(** Position of the first occurrence of [j] in [l] ([length l] if none). *)
Fixpoint index_of (j : nat) (l : list nat) : nat :=
  match l with
  | [] => 0
  | p :: l' => if p =? j then 0 else S (index_of j l')
  end.

Section Arrays.
Context {A : Type} `{Scalar A}.

Definition get (t : tensor A) (idx : list nat) : A :=
  nth (ravel (shape t) idx) (data t) zero.

(** The array of shape [s] whose entry at [idx] is [f idx]. *)
Definition build (s : list nat) (f : list nat -> A) : tensor A :=
  mkTensor s (map (fun i => f (unravel s i)) (seq 0 (size s))).

Definition tmap (f : A -> A) (t : tensor A) : tensor A :=
  mkTensor (shape t) (map f (data t)).

(** Sum of a list of scalars, accumulated from [zero] from the left. *)
Definition sum_list (l : list A) : A := fold_left add l zero.

(** Sum of [f 0 .. f (n-1)]. *)
Definition sum_upto (n : nat) (f : nat -> A) : A :=
  sum_list (map f (seq 0 n)).
End Arrays.

(** ** Broadcasting of two shapes, aligned on their last axes *)

Definition bdim (a b : nat) : result nat :=
  if a =? 1 then Ok b
  else if b =? 1 then Ok a
  else if a =? b then Ok a
  else Raise ValueError.

Fixpoint bshape_rev (r1 r2 : list nat) : result (list nat) :=
  match r1, r2 with
  | [], r => Ok r
  | r, [] => Ok r
  | a :: r1', b :: r2' =>
      d <- bdim a b ;; r <- bshape_rev r1' r2' ;; Ok (d :: r)
  end.

Definition broadcast_shape (s1 s2 : list nat) : result (list nat) :=
  r <- bshape_rev (rev s1) (rev s2) ;; Ok (rev r).

(** The index of an operand of shape [s] read for the output index [idx]:
    the trailing coordinates of [idx], with 0 along the axes of extent 1. *)
Definition bindex (s idx : list nat) : list nat :=
  map (fun di => if fst di =? 1 then 0 else snd di)
      (combine s (skipn (length idx - length s) idx)).

(** ** The Keras backend operations used by the layer *)

Module K.
Section Backend.
Context {A : Type} `{Scalar A}.

(** [K.dot(x, y)] for [y] of rank at least 2: contraction of the last axis
    of [x] with the second-to-last axis of [y]; the output axes are those
    of [x] but the last, then those of [y] but the second-to-last. *)
Definition dot (x y : tensor A) : result (tensor A) :=
  match rev (shape x), rev (shape y) with
  | dx :: rx, cy :: dy :: ry =>
      if dx =? dy then
        let sx := rev rx in
        let sy := rev ry in
        Ok (build (sx ++ sy ++ [cy]) (fun idx =>
              let ix := firstn (length sx) idx in
              let iy := skipn (length sx) idx in
              sum_upto dx (fun d =>
                mul (get x (ix ++ [d]))
                    (get y (insert_at (length sy) d iy)))))
      else Raise ValueError
  | _, _ => Raise ValueError
  end.

(** The shape a reshape target denotes for an array of [n] entries: at
    most one extent may be -1 and is then inferred. *)
Definition resolve_shape (target : list Z) (n : nat) : result (list nat) :=
  if existsb (fun d => d <? -1)%Z target then Raise ValueError
  else
    let known := fold_right Z.mul 1%Z (filter (fun d => 0 <=? d)%Z target) in
    match length (filter (fun d => d =? -1)%Z target) with
    | 0 => if (known =? Z.of_nat n)%Z then Ok (map Z.to_nat target)
           else Raise ValueError
    | 1 => if (known =? 0)%Z || negb (Z.of_nat n mod known =? 0)%Z
           then Raise ValueError
           else Ok (map (fun d => if (d =? -1)%Z
                                  then Z.to_nat (Z.of_nat n / known)
                                  else Z.to_nat d) target)
    | _ => Raise ValueError
    end.

(** [K.reshape(x, target)]: same entries in the same row-major order. *)
Definition reshape (x : tensor A) (target : list Z) : result (tensor A) :=
  s <- resolve_shape target (length (data x)) ;;
  Ok (mkTensor s (data x)).

(** [K.expand_dims(x, axis)]: a new axis of extent 1 at position [axis]. *)
Definition expand_dims (x : tensor A) (axis : nat) : result (tensor A) :=
  if axis <=? length (shape x)
  then Ok (mkTensor (insert_at axis 1 (shape x)) (data x))
  else Raise ValueError.

(** [K.permute_dimensions(x, pattern)]: axis [i] of the output is axis
    [pattern[i]] of [x]. *)
Definition permute_dimensions (x : tensor A) (pattern : list nat)
  : result (tensor A) :=
  let r := length (shape x) in
  if (length pattern =? r)
     && forallb (fun j => existsb (Nat.eqb j) pattern) (seq 0 r)
  then Ok (build (map (fun p => nth p (shape x) 0) pattern) (fun idx =>
             get x (map (fun j => nth (index_of j pattern) idx 0) (seq 0 r))))
  else Raise ValueError.

(** Entrywise binary operation with broadcasting (the tensor [-]). *)
Definition broadcast2 (f : A -> A -> A) (a b : tensor A)
  : result (tensor A) :=
  s <- broadcast_shape (shape a) (shape b) ;;
  Ok (build s (fun idx =>
        f (get a (bindex (shape a) idx)) (get b (bindex (shape b) idx)))).

Definition tsub (a b : tensor A) : result (tensor A) := broadcast2 sub a b.

(** Unary minus, [K.abs] and [K.exp] act entrywise. *)
Definition tneg (x : tensor A) : tensor A := tmap neg x.
Definition abs (x : tensor A) : tensor A := tmap sabs x.
Definition exp (x : tensor A) : tensor A := tmap sexp x.

(** [K.sum(x, axis)]: the axis is summed out. *)
Definition sum (x : tensor A) (axis : nat) : result (tensor A) :=
  if axis <? length (shape x) then
    Ok (build (remove_at axis (shape x)) (fun idx =>
          sum_upto (nth axis (shape x) 0) (fun j =>
            get x (insert_at axis j idx))))
  else Raise ValueError.
End Backend.
End K.

(** ** The numpy operations used by the data helpers *)

Module np.
Section Numpy.
Context {A : Type} `{Scalar A}.

(** The slice [lo:hi] of axis [ax] (all other axes whole). *)
Definition slice_axis (x : tensor A) (ax lo hi : nat) : tensor A :=
  build (replace_at ax (hi - lo) (shape x)) (fun idx =>
    get x (replace_at ax (nth ax idx 0 + lo) idx)).

(** [np.hsplit(x, [t])]: the pair [x[:, :t]], [x[:, t:]] (for a
    1-dimensional [x], [x[:t]] and [x[t:]]); slice bounds are clamped to
    the extent of the axis. *)
Definition hsplit (x : tensor A) (t : nat) : result (tensor A * tensor A) :=
  match shape x with
  | [] => Raise ValueError
  | [d] => Ok (slice_axis x 0 0 (Nat.min t d), slice_axis x 0 (Nat.min t d) d)
  | _ :: d :: _ =>
      Ok (slice_axis x 1 0 (Nat.min t d), slice_axis x 1 (Nat.min t d) d)
  end.

Definition atleast_2d (s : list nat) : list nat :=
  match s with
  | [] => [1; 1]
  | [n] => [1; n]
  | _ => s
  end.

(** [np.vstack([a, b])]: concatenation along the first axis; the other
    axes must agree. *)
Definition vstack (a b : tensor A) : result (tensor A) :=
  match atleast_2d (shape a), atleast_2d (shape b) with
  | ra :: ta, rb :: tb =>
      if list_eq_dec Nat.eq_dec ta tb
      then Ok (mkTensor (ra + rb :: ta) (data a ++ data b))
      else Raise ValueError
  | _, _ => Raise ValueError
  end.
End Numpy.

(** [np.clip(w, lo, hi)] is [np.minimum(hi, np.maximum(w, lo))]; here on
    arrays of exact numbers, and in [F32.clip] on binary32 arrays. *)
Definition clip (w : tensor R) (lo hi : R) : tensor R :=
  mkTensor (shape w) (map (fun v => Rmin hi (Rmax v lo)) (data w)).
End np.

(** ** [split_data]

    The recursion of the source is on an array that loses [timesteps]
    columns per call; it is modelled with a recursion budget [fuel], [None]
    meaning that the budget ran out before the function returned.  A
    returned value is Python's [None] ([Ok None]) or an array. *)

Section SplitData.
Context {A : Type} `{Scalar A}.

Fixpoint split_data (fuel : nat) (dataset : tensor A) (timesteps : nat)
  : option (result (option (tensor A))) :=
  match fuel with
  | 0 => None
  | S fuel' =>
      match shape dataset with
      | _ :: D :: _ =>
          if D <? timesteps then Some (Ok None)
          else if D =? timesteps then Some (Ok (Some dataset))
          else
            match np.hsplit dataset timesteps with
            | Raise e => Some (Raise e)
            | Ok (splitted_data, remaining_data) =>
                match split_data fuel' remaining_data timesteps with
                | None => None
                | Some (Raise e) => Some (Raise e)
                | Some (Ok (Some remaining_data')) =>
                    Some (r <- np.vstack splitted_data remaining_data' ;;
                          Ok (Some r))
                | Some (Ok None) => Some (Ok (Some splitted_data))
                end
            end
      | _ => Some (Raise IndexError)
      end
  end.
End SplitData.

(** ** [clip_weights]

    A model is the list of its layers, a layer holds a list of weight
    arrays; [clip_weights] returns the model after the in-place update.
    The weights are exact numbers here; [F32.clip_weights] is the function
    on binary32 weights. *)

Record Layer : Type := mkLayer {
  weights : list (tensor R);
  trainable : bool
}.

Record Model : Type := mkModel {
  layers : list Layer;
  model_trainable : bool
}.

Definition get_weights (l : Layer) : list (tensor R) := weights l.

Definition set_weights (l : Layer) (ws : list (tensor R)) : Layer :=
  mkLayer ws (trainable l).

Definition clip_weights (model : Model) (clip_value : R) : Model :=
  mkModel
    (map (fun l =>
            set_weights l
              (map (fun w => np.clip w (- clip_value) clip_value)
                   (get_weights l)))
         (layers model))
    (model_trainable model).

(** ** The [MinibatchDiscrimination] layer *)

Module MinibatchDiscrimination.
Section Layer.
Context {A : Type} `{Scalar A}.

(** The attributes of the layer the computation reads.  [W] is absent
    until the framework builds the layer; [build] then creates it with
    shape [(nb_kernels, input_dim, kernel_dim)]. *)
Record layer : Type := mkLayer {
  nb_kernels : Z;
  kernel_dim : Z;
  input_dim : option Z;
  W : option (tensor A)
}.

(** The constructor stores its arguments; none of its statements
    inspects or rejects [nb_kernels] or [kernel_dim].  The initializer,
    regularizers, constraint and input spec it also stores are handles to
    framework objects that the computation below does not read; they are
    left out of the record. *)
Definition __init__ (nb_kernels kernel_dim : Z) (input_dim : option Z)
  : result layer :=
  Ok (mkLayer nb_kernels kernel_dim input_dim None).

(** [activation = K.reshape(K.dot(x, self.W),
                            (-1, self.nb_kernels, self.kernel_dim))] *)
Definition activation (self : layer) (x : tensor A) : result (tensor A) :=
  match W self with
  | None => Raise AttributeError
  | Some w =>
      xw <- K.dot x w ;;
      K.reshape xw [(-1)%Z; nb_kernels self; kernel_dim self]
  end.

(** [diffs = K.expand_dims(activation, 3)
           - K.expand_dims(K.permute_dimensions(activation, [1, 2, 0]), 0)] *)
Definition diffs (activation : tensor A) : result (tensor A) :=
  a <- K.expand_dims activation 3 ;;
  p <- K.permute_dimensions activation [1; 2; 0] ;;
  b <- K.expand_dims p 0 ;;
  K.tsub a b.

(** [abs_diffs = K.sum(K.abs(diffs), axis=2)] *)
Definition abs_diffs (diffs : tensor A) : result (tensor A) :=
  K.sum (K.abs diffs) 2.

(** [minibatch_features = K.sum(K.exp(-abs_diffs), axis=2)] *)
Definition minibatch_features (abs_diffs : tensor A) : result (tensor A) :=
  K.sum (K.exp (K.tneg abs_diffs)) 2.

Definition call (self : layer) (x : tensor A) : result (tensor A) :=
  a <- activation self x ;;
  d <- diffs a ;;
  ad <- abs_diffs d ;;
  minibatch_features ad.

(** The pairwise distances [call] computes on the way. *)
Definition distances (self : layer) (x : tensor A) : result (tensor A) :=
  a <- activation self x ;;
  d <- diffs a ;;
  abs_diffs d.

(** [compute_output_shape]: a Keras shape is a tuple of extents, an
    unknown extent being [None]. *)
Definition compute_output_shape (self : layer) (input_shape : list (option Z))
  : result (option Z * Z) :=
  match input_shape with
  | [d0; _] => Ok (d0, nb_kernels self)
  | _ => Raise AssertionError
  end.
End Layer.

Arguments layer A : clear implicits.
End MinibatchDiscrimination.

(** ** The reference algorithm of the specification

    The five steps of the specification, written entry by entry for an
    input batch [x] of shape (N, D) and projection weights [w] of shape
    (K, D, C). *)

Section Reference.
Context {A : Type} `{Scalar A}.
Variables x w : tensor A.

Let N := nth 0 (shape x) 0.
Let D := nth 1 (shape x) 0.
Let K := nth 0 (shape w) 0.
Let C := nth 2 (shape w) 0.

(** 1. Project. *)
Definition ref_activation (n k c : nat) : A :=
  sum_upto D (fun d => mul (get x [n; d]) (get w [k; d; c])).

(** 2. Pairwise difference. *)
Definition ref_difference (n m k c : nat) : A :=
  sub (ref_activation n k c) (ref_activation m k c).

(** 3. Distance. *)
Definition ref_dist (n m k : nat) : A :=
  sum_upto C (fun c => sabs (ref_difference n m k c)).

(** 4. Kernelize. *)
Definition ref_kernel (n m k : nat) : A := sexp (neg (ref_dist n m k)).

(** 5. Aggregate, over all [m] including [m = n]. *)
Definition ref_output (n k : nat) : A :=
  sum_upto N (fun m => ref_kernel n m k).

Definition reference : tensor A :=
  build [N; K] (fun idx => ref_output (nth 0 idx 0) (nth 1 idx 0)).
End Reference.

(** ** Real-number scalars *)

#[export] Instance Scalar_R : Scalar R := {
  zero := 0%R;
  add := Rplus;
  sub := Rminus;
  mul := Rmult;
  neg := Ropp;
  sabs := Rabs;
  sexp := Rtrigo_def.exp
}.

(** A Keras shape with every extent known. *)
Definition keras_shape (s : list nat) : list (option Z) :=
  map (fun d => Some (Z.of_nat d)) s.

(** The layer has been built: [W] is present with shape
    [(nb_kernels, input_dim, kernel_dim)] = (K, D, C). *)
Definition built {A : Type} (self : MinibatchDiscrimination.layer A)
    (w : tensor A) (K D C : nat) : Prop :=
  MinibatchDiscrimination.W self = Some w /\
  shape w = [K; D; C] /\
  MinibatchDiscrimination.nb_kernels self = Z.of_nat K /\
  MinibatchDiscrimination.kernel_dim self = Z.of_nat C.

(** [has t s f]: the well-formed array [t] has shape [s] and entry [f idx]
    at every index [idx] in range. *)
Definition has {A : Type} `{Scalar A} (t : tensor A) (s : list nat)
    (f : list nat -> A) : Prop :=
  shape t = s /\ wf t /\ forall idx, in_range idx s -> get t idx = f idx.

(** ** The concrete scenario of the specification

    N = 2, D = 3, K = 1, C = 1: the weights project onto the first
    coordinate. *)

Definition scenario_weights : tensor R :=
  mkTensor [1; 3; 1] [1; 0; 0]%R.

Definition scenario_batch : tensor R :=
  mkTensor [2; 3] [1; 0; 0; 3; 0; 0]%R.

Definition scenario_layer : MinibatchDiscrimination.layer R :=
  MinibatchDiscrimination.mkLayer 1 1 None (Some scenario_weights).

(** Further concrete inputs. *)

Definition near_distances : tensor R := mkTensor [2; 1; 2] [0; 2; 2; 0]%R.
Definition far_distances : tensor R := mkTensor [2; 1; 2] [0; 3; 5; 0]%R.

Definition wide_dataset : tensor R :=
  mkTensor [2; 5] [1; 2; 3; 4; 5; 6; 7; 8; 9; 10]%R.

Definition small_model : Model :=
  mkModel [mkLayer [mkTensor [3] [-2; 0.5; 7]%R; mkTensor [1; 1] [0]%R] true]
          true.

(** ** Further functions of the module *)

(** [set_model_trainable]: the flag of the model and of each of its layers
    is overwritten. *)
Definition set_model_trainable (model : Model) (trainable : bool) : Model :=
  mkModel (map (fun l => mkLayer (weights l) trainable) (layers model))
          trainable.

(** [K.mean(x)] without an axis: the mean of all entries, a scalar array. *)
Definition K_mean (x : tensor R) : tensor R :=
  mkTensor [] [(sum_list (data x) / INR (length (data x)))%R].

(** [wasserstein_loss(y_true, y_pred) = K.mean(y_true * y_pred)] *)
Definition wasserstein_loss (y_true y_pred : tensor R) : result (tensor R) :=
  p <- K.broadcast2 mul y_true y_pred ;;
  Ok (K_mean p).

(** [MinibatchDiscrimination.build]: after the assertion on the rank of
    the input shape, the kernel is created by the framework's [add_weight],
    a parameter here, for the shape
    [(nb_kernels, input_shape[1], kernel_dim)]; the attributes set by the
    constructor are left as they are. *)
Definition build_layer {A : Type}
    (add_weight : list (option Z) -> result (tensor A))
    (self : MinibatchDiscrimination.layer A) (input_shape : list (option Z))
  : result (MinibatchDiscrimination.layer A) :=
  match input_shape with
  | [_; input_dim] =>
      w <- add_weight [Some (MinibatchDiscrimination.nb_kernels self);
                       input_dim;
                       Some (MinibatchDiscrimination.kernel_dim self)] ;;
      Ok (MinibatchDiscrimination.mkLayer
            (MinibatchDiscrimination.nb_kernels self)
            (MinibatchDiscrimination.kernel_dim self)
            (MinibatchDiscrimination.input_dim self)
            (Some w))
  | _ => Raise AssertionError
  end.

(** ** Plotting

    The plotting helpers act on the global figure of matplotlib.  They are
    modelled by the sequence of calls they make to the library, in order,
    together with the exception that ends the run, if any.  A call to the
    library itself is taken to return normally; for the calls made here it
    does when the grid has at least one row and one column and the arrays
    given to [plt.plot] have at most two axes. *)

Module plt.
Inductive event : Type :=
| subplots (nrows ncols : nat) (figsize : nat * nat)
| subplot (nrows ncols index : nat)
| imshow (X : tensor R)
| plot (y : tensor R)
| ylim (bottom top : Z)
| xticks (ticks : list R)
| yticks (ticks : list R)
| legend (labels : list String.string)
| tight_layout
| subplots_adjust (wspace hspace : Z)
| savefig (fname : String.string)
| clf
| close.

Import String.
Definition generator : string := "generator"%string.
Definition critic : string := "critic"%string.
End plt.

(** A run: the calls made so far and the value or exception reached. *)
Definition io (X : Type) : Type := (list plt.event * result X)%type.

Definition ret {X : Type} (x : X) : io X := ([], Ok x).

Definition emit (e : plt.event) : io unit := ([e], Ok tt).

Definition lift {X : Type} (r : result X) : io X := ([], r).

Definition io_bind {X Y : Type} (c : io X) (k : X -> io Y) : io Y :=
  match c with
  | (t, Ok x) => (t ++ fst (k x), snd (k x))
  | (t, Raise e) => (t, Raise e)
  end.

Notation "c >>> k" := (io_bind c (fun _ => k))
  (at level 62, right associativity).

(** A [for] loop over a list, and one that threads a counter. *)
Fixpoint for_each {X : Type} (l : list X) (body : X -> io unit) : io unit :=
  match l with
  | [] => ret tt
  | x :: l' => body x >>> for_each l' body
  end.

Fixpoint for_each_with {X S : Type} (l : list X) (s : S)
    (body : X -> S -> io S) : io S :=
  match l with
  | [] => ret s
  | x :: l' => io_bind (body x s) (fun s' => for_each_with l' s' body)
  end.

(** [x[i]] for an array [x] and [i >= 0]: the [i]-th slice along the first
    axis. *)
Definition np_getitem (x : tensor R) (i : nat) : result (tensor R) :=
  match shape x with
  | [] => Raise IndexError
  | n :: s =>
      if i <? n
      then Ok (mkTensor s (firstn (size s) (skipn (i * size s) (data x))))
      else Raise IndexError
  end.

(** [x.T]: the axes in reverse order. *)
Definition np_T (x : tensor R) : result (tensor R) :=
  K.permute_dimensions x (rev (seq 0 (length (shape x)))).

(** [(sample.reshape(10, 10) + 1.0) / 2.0] *)
Definition as_image (sample : tensor R) : result (tensor R) :=
  r <- K.reshape sample [10%Z; 10%Z] ;;
  Ok (tmap (fun v => v / 2)%R (tmap (fun v => v + 1)%R r)).

(** The body of the inner loop of [save_samples] and [save_latent_space]:
    subplot [index] shows sample [sample] of the data. *)
Definition show_sample (generated_data : tensor R) (is_image : bool)
    (nrows ncols index sample : nat) : io unit :=
  emit (plt.subplot nrows ncols index) >>>
  (if is_image then
     io_bind (lift (s <- np_getitem generated_data sample ;; as_image s))
             (fun img => emit (plt.imshow img))
   else
     io_bind (lift (s <- np_getitem generated_data sample ;; np_T s))
             (fun curve => emit (plt.plot curve) >>> emit (plt.ylim (-1) 1))) >>>
  emit (plt.xticks []) >>>
  emit (plt.yticks []).

(** The end of both helpers: layout, one [savefig] per file name, and the
    figure is cleared and closed. *)
Definition finish_figure (filenames : list String.string) : io unit :=
  emit plt.tight_layout >>>
  emit (plt.subplots_adjust 0 0) >>>
  for_each filenames (fun filename => emit (plt.savefig filename)) >>>
  emit plt.clf >>>
  emit plt.close.

Definition save_samples (generated_data : tensor R) (rows columns : nat)
    (filenames : list String.string) (is_image : bool) : io unit :=
  emit (plt.subplots rows columns
          (if is_image then (7, 7) else (columns * 3, rows))) >>>
  io_bind
    (for_each_with (seq 0 rows) 1 (fun i k =>
       for_each_with (seq 0 columns) k (fun j k =>
         show_sample generated_data is_image rows columns k (k - 1) >>>
         ret (k + 1))))
    (fun _ => finish_figure filenames).

Definition save_latent_space (generated_data : tensor R) (grid_size : nat)
    (filenames : list String.string) (is_image : bool) : io unit :=
  emit (plt.subplots grid_size grid_size
          (if is_image then (grid_size, grid_size)
           else (grid_size * 3, grid_size))) >>>
  for_each (seq 0 grid_size) (fun i =>
    for_each (seq 0 grid_size) (fun j =>
      show_sample generated_data is_image grid_size grid_size
        (i * grid_size + j + 1) (i * grid_size + j))) >>>
  finish_figure filenames.

(** [save_losses]: [losses] is a list of series; the lower panel shows
    the slice [[-1000:]] of the first two. *)
Definition curve (series : list R) : tensor R :=
  mkTensor [length series] series.

Definition last_1000 (series : list R) : list R :=
  skipn (length series - 1000) series.

Definition series_at (losses : list (list R)) (i : nat)
  : result (list R) :=
  match nth_error losses i with
  | Some s => Ok s
  | None => Raise IndexError
  end.

Definition save_losses (losses : list (list R)) (filename : String.string)
  : io unit :=
  emit (plt.subplots 2 1 (15, 9)) >>>
  emit (plt.subplot 2 1 1) >>>
  io_bind (lift (series_at losses 0)) (fun g => emit (plt.plot (curve g))) >>>
  io_bind (lift (series_at losses 1)) (fun c => emit (plt.plot (curve c))) >>>
  emit (plt.legend [plt.generator; plt.critic]) >>>
  emit (plt.subplot 2 1 2) >>>
  io_bind (lift (series_at losses 0))
          (fun g => emit (plt.plot (curve (last_1000 g)))) >>>
  io_bind (lift (series_at losses 1))
          (fun c => emit (plt.plot (curve (last_1000 c)))) >>>
  emit (plt.legend [plt.generator; plt.critic]) >>>
  emit (plt.savefig filename) >>>
  emit plt.clf >>>
  emit plt.close.

(** What a run did: the files saved, the subplots selected and the
    curves or images drawn, in order. *)
Definition saved_files (trace : list plt.event) : list String.string :=
  flat_map (fun e => match e with plt.savefig f => [f] | _ => [] end) trace.

Definition subplot_indices (trace : list plt.event) : list nat :=
  flat_map (fun e => match e with plt.subplot _ _ k => [k] | _ => [] end)
           trace.

Definition drawn (trace : list plt.event) : list (tensor R) :=
  flat_map (fun e => match e with
                     | plt.plot y => [y]
                     | plt.imshow X => [X]
                     | _ => []
                     end) trace.

(** The curve drawn for sample [p]: [generated_data[p].T]. *)
Definition sample_curve (generated_data : tensor R) (p : nat)
  : result (tensor R) :=
  s <- np_getitem generated_data p ;; np_T s.

(** ** [load_resized_mnist]

    The training images, the resizing function of scipy and the contents
    of the array that [np.empty] returns are parameters. *)

Definition mnist_rows : nat := 60 * 1000.

(** [x[i] = v] for an array [x]: [v] must broadcast to the shape of a
    slice. *)
Definition np_setitem (x : tensor R) (i : nat) (v : tensor R)
  : result (tensor R) :=
  match shape x with
  | [] => Raise IndexError
  | n :: s =>
      if i <? n then
        match broadcast_shape (shape v) s with
        | Ok s' =>
            if list_eq_dec Nat.eq_dec s' s then
              Ok (mkTensor (shape x)
                    (firstn (i * size s) (data x)
                     ++ data (build s (fun idx => get v (bindex (shape v) idx)))
                     ++ skipn ((i + 1) * size s) (data x)))
            else Raise ValueError
        | Raise e => Raise ValueError
        end
      else Raise IndexError
  end.

(** [np.empty(shape)]: an array of that shape with whatever the memory
    holds. *)
Definition np_empty (memory : nat -> R) (s : list nat) : tensor R :=
  mkTensor s (map memory (seq 0 (size s))).

Fixpoint for_rows (rows : list nat) (dataset : tensor R)
    (body : nat -> tensor R -> result (tensor R)) : result (tensor R) :=
  match rows with
  | [] => Ok dataset
  | row :: rows' => d <- body row dataset ;; for_rows rows' d body
  end.

Definition load_resized_mnist (x_train : tensor R)
    (imresize : tensor R -> nat * nat -> result (tensor R))
    (memory : nat -> R) (size : nat) : result (tensor R) :=
  let dataset := np_empty memory [mnist_rows; size; size] in
  match shape x_train with
  | [] => Raise IndexError
  | rows :: _ =>
      dataset <- for_rows (seq 0 rows) dataset (fun row dataset =>
                   img <- np_getitem x_train row ;;
                   resized <- imresize img (size, size) ;;
                   np_setitem dataset row resized) ;;
      let dataset :=
        tmap (fun v => v - 1)%R
          (tmap (fun v => v * 2)%R (tmap (fun v => v / 255)%R dataset)) in
      K.reshape dataset [Z.of_nat mnist_rows; Z.of_nat (size * size)]
  end.

(** ** [get_config]

    Configuration values and Python dictionaries; a dictionary is the
    list of its items in insertion order.  The configurations of the
    regularizers and of the constraint, objects of the framework, are
    parameters: [None] for an absent one, else what its [get_config]
    returns; so is the configuration of the base class. *)

#[local] Set Warnings "-register-all".

Inductive pyvalue : Type :=
| PyNone
| PyInt (z : Z)
| PyDict (items : list (String.string * pyvalue)).

Definition pydict : Type := list (String.string * pyvalue).

(** [d[k] = v] *)
Fixpoint dict_set (d : pydict) (k : String.string) (v : pyvalue) : pydict :=
  match d with
  | [] => [(k, v)]
  | (k', v') :: d' =>
      if String.eqb k' k then (k', v) :: d' else (k', v') :: dict_set d' k v
  end.

(** [dict(items)]: later items replace earlier ones with the same key. *)
Definition dict_of_items (items : list (String.string * pyvalue)) : pydict :=
  fold_left (fun d kv => dict_set d (fst kv) (snd kv)) items [].

(** [d.get(k)] *)
Fixpoint dict_get (d : pydict) (k : String.string) : option pyvalue :=
  match d with
  | [] => None
  | (k', v) :: d' => if String.eqb k' k then Some v else dict_get d' k
  end.

(** [x.get_config() if x else None] *)
Definition config_or_none (x : option pydict) : pyvalue :=
  match x with
  | Some c => PyDict c
  | None => PyNone
  end.

Definition int_or_none (x : option Z) : pyvalue :=
  match x with
  | Some z => PyInt z
  | None => PyNone
  end.

Module key.
Import String.
Definition nb_kernels : string := "nb_kernels"%string.
Definition kernel_dim : string := "kernel_dim"%string.
Definition W_regularizer : string := "W_regularizer"%string.
Definition activity_regularizer : string := "activity_regularizer"%string.
Definition W_constraint : string := "W_constraint"%string.
Definition input_dim : string := "input_dim"%string.
Definition init : string := "init"%string.
End key.

Definition own_keys : list String.string :=
  [key.nb_kernels; key.kernel_dim; key.W_regularizer;
   key.activity_regularizer; key.W_constraint; key.input_dim].

Definition get_config {A : Type} (self : MinibatchDiscrimination.layer A)
    (W_regularizer activity_regularizer W_constraint : option pydict)
    (base_config : pydict) : pydict :=
  let config :=
    dict_of_items
      [(key.nb_kernels, PyInt (MinibatchDiscrimination.nb_kernels self));
       (key.kernel_dim, PyInt (MinibatchDiscrimination.kernel_dim self));
       (key.W_regularizer, config_or_none W_regularizer);
       (key.activity_regularizer, config_or_none activity_regularizer);
       (key.W_constraint, config_or_none W_constraint);
       (key.input_dim, int_or_none (MinibatchDiscrimination.input_dim self))] in
  dict_of_items (base_config ++ config).

(** The value of the last item with key [k]. *)
Fixpoint last_item (items : list (String.string * pyvalue))
    (k : String.string) : option pyvalue :=
  match items with
  | [] => None
  | (k', v) :: rest =>
      match last_item rest k with
      | Some v' => Some v'
      | None => if String.eqb k' k then Some v else None
      end
  end.

(** Concrete inputs for the further properties. *)

Definition narrow_batch : tensor R := mkTensor [2; 2] [1; 0; 3; 0]%R.

Definition scenario_add_weight (s : list (option Z)) : result (tensor R) :=
  Ok scenario_weights.

Definition real_labels : tensor R := mkTensor [2; 1] [1; 1]%R.
Definition critic_scores : tensor R := mkTensor [2; 1] [0.5; -3]%R.

Definition four_curves : tensor R :=
  mkTensor [4; 3] [1; 2; 3; 4; 5; 6; 7; 8; 9; 10; 11; 12]%R.

Definition three_curves : tensor R :=
  mkTensor [3; 2] [1; 2; 3; 4; 5; 6]%R.

Definition white_resize (img : tensor R) (shape : nat * nat)
  : result (tensor R) :=
  Ok (mkTensor [1; 1] [255%R]).

Definition blank_train : tensor R :=
  np_empty (fun _ => 0%R) [mnist_rows; 1; 1].

(** ** Machine floats

    The arrays of the backend and the weights of a model hold IEEE 754
    binary32 numbers; a Python float is a binary64 number.  [SpecFloat]
    gives the operations on them, rounding to nearest, ties to even.  The
    exponential of a finite number other than zero is what the backend
    computes for it: it is the parameter [exp_finite] of the scalars; at
    zeros, infinities and NaN the value of [exp] is the one of IEEE 754. *)

Module F32.
Definition prec : Z := 24.
Definition emax : Z := 128.

Definition zero : spec_float := S754_zero false.
Definition one : spec_float := S754_finite false 8388608 (-23).
Definition nan : spec_float := S754_nan.

Definition add : spec_float -> spec_float -> spec_float := SFadd prec emax.
Definition sub : spec_float -> spec_float -> spec_float := SFsub prec emax.
Definition mul : spec_float -> spec_float -> spec_float := SFmul prec emax.

Definition is_nan (x : spec_float) : bool :=
  match x with
  | S754_nan => true
  | _ => false
  end.

Definition is_finite (x : spec_float) : bool :=
  match x with
  | S754_zero _ | S754_finite _ _ _ => true
  | _ => false
  end.

(** The binary32 number nearest to an integer. *)
Definition of_Z (z : Z) : spec_float := binary_normalize prec emax z 0 false.






(** The numbers that are not negative: a zero, plus infinity, or a finite
    number with the sign bit clear; and the numbers that are not
    positive. *)
Inductive nonneg : spec_float -> Prop :=
| nonneg_zero (s : bool) : nonneg (S754_zero s)
| nonneg_infinity : nonneg (S754_infinity false)
| nonneg_finite (m : positive) (e : Z) : nonneg (S754_finite false m e).

Inductive nonpos : spec_float -> Prop :=
| nonpos_zero (s : bool) : nonpos (S754_zero s)
| nonpos_infinity : nonpos (S754_infinity true)
| nonpos_finite (m : positive) (e : Z) : nonpos (S754_finite true m e).

(** Conversion of a Python float to binary32, and back. *)
Definition of_float (x : spec_float) : spec_float :=
  match x with
  | S754_finite s m e => binary_round prec emax s m e
  | _ => x
  end.

Definition to_float (x : spec_float) : spec_float :=
  match x with
  | S754_finite s m e => binary_round 53 1024 s m e
  | _ => x
  end.

Section Exp.
Variable exp_finite : bool -> positive -> Z -> spec_float.

Definition exp (x : spec_float) : spec_float :=
  match x with
  | S754_nan => S754_nan
  | S754_infinity false => x
  | S754_infinity true => zero
  | S754_zero _ => one
  | S754_finite s m e => exp_finite s m e
  end.

Definition scalar : Scalar spec_float :=
  @Build_Scalar spec_float zero add sub mul SFopp SFabs exp.

(** The layer and its reference algorithm on binary32 arrays. *)
Definition get : tensor spec_float -> list nat -> spec_float :=
  @get spec_float scalar.

Definition call
  : MinibatchDiscrimination.layer spec_float -> tensor spec_float ->
    result (tensor spec_float) :=
  @MinibatchDiscrimination.call spec_float scalar.

Definition distances
  : MinibatchDiscrimination.layer spec_float -> tensor spec_float ->
    result (tensor spec_float) :=
  @MinibatchDiscrimination.distances spec_float scalar.

Definition activation (x w : tensor spec_float) (n k c : nat) : spec_float :=
  @ref_activation spec_float scalar x w n k c.
End Exp.

(** [np.clip(a, a_min, a_max)] on a binary32 array, the bounds being Python
    floats: the bounds are converted to binary32 and each entry [v] becomes
    [min(max(v, a_min), a_max)], where [max(a, b)] is [a] when [a] is NaN or
    [a > b] and [b] otherwise, and [min] likewise. *)
Definition maximum (a b : spec_float) : spec_float :=
  if is_nan a then a else if SFltb b a then a else b.

Definition minimum (a b : spec_float) : spec_float :=
  if is_nan a then a else if SFltb a b then a else b.

Definition clip (a : tensor spec_float) (a_min a_max : spec_float)
  : tensor spec_float :=
  mkTensor (shape a)
    (map (fun v => minimum (maximum v (of_float a_min)) (of_float a_max))
         (data a)).

(** A model whose weights are binary32 arrays, and [clip_weights] on it;
    [clip_value] is a Python float. *)
Record Layer : Type := mkLayer {
  weights : list (tensor spec_float);
  trainable : bool
}.

Record Model : Type := mkModel {
  layers : list Layer;
  model_trainable : bool
}.

Definition get_weights (l : Layer) : list (tensor spec_float) := weights l.

Definition set_weights (l : Layer) (ws : list (tensor spec_float)) : Layer :=
  mkLayer ws (trainable l).

Definition clip_weights (model : Model) (clip_value : spec_float) : Model :=
  mkModel
    (map (fun l =>
            set_weights l
              (map (fun w => clip w (SFopp clip_value) clip_value)
                   (get_weights l)))
         (layers model))
    (model_trainable model).

(** What clipping to [-c, c] means for binary32 entries: a NaN stays a NaN;
    any other entry [v] is replaced by an entry [v'] of [-c, c], which is
    equal to [v] when [v] was already there.  Arrays and layers are related
    position by position. *)
Definition entry_clipped (c v v' : spec_float) : Prop :=
  (is_nan v = true -> is_nan v' = true) /\
  (is_nan v = false ->
   SFleb (SFopp c) v' = true /\ SFleb v' c = true) /\
  (SFleb (SFopp c) v = true -> SFleb v c = true -> SFeqb v' v = true).

Definition array_clipped (c : spec_float) (w w' : tensor spec_float) : Prop :=
  shape w' = shape w /\ Forall2 (entry_clipped c) (data w) (data w').

Definition layer_clipped (c : spec_float) (l l' : Layer) : Prop :=
  Forall2 (array_clipped c) (weights l) (weights l').
End F32.

(** The term that a sample contributes for itself: [exp(-0)]. *)
Definition unit_term {A : Type} `{Scalar A} : A := sexp (neg zero).

(** Concrete binary32 inputs.  [overflow_batch] holds 3e38, whose product
    with the weight 2 is beyond the largest binary32 number; a tenth and a
    half are Python floats, [tenth32] is the binary32 number nearest to a
    tenth. *)

Definition doubling_weights : tensor spec_float :=
  mkTensor [1; 3; 1] [F32.of_Z 2; F32.zero; F32.zero].

Definition overflow_batch : tensor spec_float :=
  mkTensor [1; 3] [S754_finite false 14791142 104; F32.zero; F32.zero].

Definition doubling_layer : MinibatchDiscrimination.layer spec_float :=
  MinibatchDiscrimination.mkLayer 1 1 None (Some doubling_weights).

Definition finite_batch : tensor spec_float :=
  mkTensor [1; 3] [F32.of_Z 3; F32.zero; F32.zero].

Definition collapsed_batch : tensor spec_float :=
  mkTensor [2; 3] [F32.of_Z 4; F32.of_Z 5; F32.of_Z 6;
                   F32.of_Z 4; F32.of_Z 5; F32.of_Z 6].

(** An exponential that underflows to zero on every finite number, for
    the statements that ask of the exponential only that its values at
    negative numbers are numbers of [0, 1]. *)
Definition underflow_exp (s : bool) (m : positive) (e : Z) : spec_float :=
  F32.zero.

Definition tenth : spec_float := S754_finite false 7205759403792794 (-56).
Definition half : spec_float := S754_finite false 4503599627370496 (-53).
Definition tenth32 : spec_float := S754_finite false 13421773 (-27).

Definition float_model : F32.Model :=
  F32.mkModel
    [F32.mkLayer [mkTensor [3] [F32.of_Z (-2); F32.of_float half; F32.of_Z 7];
                  mkTensor [1; 1] [F32.nan]] true]
    true.

(** * Properties *)

(** ** Indices *)

Lemma in_range_length (idx s : list nat) :
  in_range idx s -> length idx = length s.
Proof.
  unfold in_range. induction 1; simpl; congruence.
Qed.

Lemma in_range_cons (i d : nat) (idx s : list nat) :
  in_range (i :: idx) (d :: s) <-> i < d /\ in_range idx s.
Proof.
  unfold in_range. split.
  - intros Hr. inversion Hr; subst. split; assumption.
  - intros [Hi Hr]. constructor; assumption.
Qed.

Lemma in_range_nil : in_range [] [].
Proof. constructor. Qed.

Lemma in_range_app (i1 i2 s1 s2 : list nat) :
  in_range i1 s1 -> in_range i2 s2 -> in_range (i1 ++ i2) (s1 ++ s2).
Proof.
  unfold in_range. intros H1 H2. apply Forall2_app; assumption.
Qed.

Lemma ravel_lt (s idx : list nat) :
  in_range idx s -> ravel s idx < size s.
Proof.
  unfold in_range. intros Hr. induction Hr as [|i d idx s Hi Hr IH]; simpl.
  - lia.
  - fold (size s). nia.
Qed.

Lemma unravel_ravel (s idx : list nat) :
  in_range idx s -> unravel s (ravel s idx) = idx.
Proof.
  unfold in_range. intros Hr. induction Hr as [|i d idx s Hi Hr IH]; simpl.
  - reflexivity.
  - pose proof (ravel_lt Hr) as Hlt.
    assert (Hq : (i * size s + ravel s idx) / size s = i).
    { rewrite Nat.div_add_l by lia. rewrite Nat.div_small by assumption. lia. }
    assert (Hm : (i * size s + ravel s idx) mod size s = ravel s idx).
    { rewrite Nat.add_comm, Nat.Div0.mod_add. apply Nat.mod_small. assumption. }
    rewrite Hq, Hm, IH. reflexivity.
Qed.

Lemma unravel_in_range (s : list nat) :
  forall i, i < size s -> in_range (unravel s i) s.
Proof.
  induction s as [|d s IH]; intros i Hi; simpl in *.
  - constructor.
  - fold (size s) in Hi.
    assert (Hs : size s <> 0) by nia.
    apply in_range_cons. split.
    + apply Nat.Div0.div_lt_upper_bound. lia.
    + apply IH. apply Nat.mod_upper_bound. assumption.
Qed.

Lemma ravel_unravel (s : list nat) :
  forall i, i < size s -> ravel s (unravel s i) = i.
Proof.
  induction s as [|d s IH]; intros i Hi; simpl in *.
  - lia.
  - fold (size s) in Hi.
    assert (Hs : size s <> 0) by nia.
    rewrite IH by (apply Nat.mod_upper_bound; assumption).
    pose proof (Nat.div_mod_eq i (size s)). lia.
Qed.

(** ** Arrays built entry by entry *)

Section ArrayFacts.
Context {A : Type} `{Scalar A}.

Lemma wf_build (s : list nat) (f : list nat -> A) : wf (build s f).
Proof.
  unfold wf, build. simpl. rewrite length_map, length_seq. reflexivity.
Qed.

Lemma nth_map_seq (g : nat -> A) (n i : nat) :
  i < n -> nth i (map g (seq 0 n)) zero = g i.
Proof.
  intros Hi.
  rewrite (nth_indep _ zero (g 0)) by (rewrite length_map, length_seq; lia).
  rewrite map_nth, seq_nth by assumption. reflexivity.
Qed.

Lemma get_build (s : list nat) (f : list nat -> A) (idx : list nat) :
  in_range idx s -> get (build s f) idx = f idx.
Proof.
  intros Hr. unfold get, build. simpl.
  rewrite nth_map_seq by (apply ravel_lt; assumption).
  rewrite unravel_ravel by assumption. reflexivity.
Qed.

Lemma has_build (s : list nat) (f : list nat -> A) : has (build s f) s f.
Proof.
  split; [reflexivity|]. split; [apply wf_build|].
  intros idx Hr. apply get_build. assumption.
Qed.

Lemma has_ext (t : tensor A) (s : list nat) (f g : list nat -> A) :
  has t s f -> (forall idx, in_range idx s -> f idx = g idx) -> has t s g.
Proof.
  intros (Hs & Hw & Hg) Hfg. split; [assumption|]. split; [assumption|].
  intros idx Hr. rewrite Hg by assumption. apply Hfg. assumption.
Qed.

(** Two well-formed arrays of one shape with the same entries are equal. *)
Lemma has_unique (t1 t2 : tensor A) (s : list nat) (f : list nat -> A) :
  has t1 s f -> has t2 s f -> t1 = t2.
Proof.
  intros (Hs1 & Hw1 & Hg1) (Hs2 & Hw2 & Hg2).
  destruct t1 as [s1 d1], t2 as [s2 d2]. unfold wf, get in *. simpl in *.
  subst s1 s2. f_equal.
  apply nth_ext with (d := zero) (d' := zero); [congruence|].
  intros i Hi. rewrite Hw1 in Hi.
  pose proof (unravel_in_range s Hi) as Hr.
  specialize (Hg1 _ Hr). specialize (Hg2 _ Hr).
  rewrite ravel_unravel in Hg1, Hg2 by assumption. congruence.
Qed.

Lemma has_tmap (h : A -> A) (t : tensor A) (s : list nat)
    (f : list nat -> A) :
  has t s f -> has (tmap h t) s (fun idx => h (f idx)).
Proof.
  intros (Hs & Hw & Hg). split; [assumption|]. split.
  - unfold wf, tmap in *. simpl. rewrite length_map. assumption.
  - intros idx Hr. rewrite <- Hg by assumption.
    unfold get, tmap. simpl.
    rewrite (nth_indep _ zero (h zero)).
    + apply map_nth.
    + rewrite length_map, Hw, Hs. apply ravel_lt. assumption.
Qed.

Lemma sum_upto_ext (n : nat) (f g : nat -> A) :
  (forall j, j < n -> f j = g j) -> sum_upto n f = sum_upto n g.
Proof.
  intros Hfg. unfold sum_upto. f_equal. apply map_ext_in.
  intros j Hj. apply in_seq in Hj. apply Hfg. lia.
Qed.
End ArrayFacts.

(** ** The backend operations, on the shapes the layer meets *)

Ltac inv_range :=
  repeat match goal with
  | Hr : in_range _ _ |- _ => unfold in_range in Hr
  | Hr : Forall2 lt _ (_ :: _) |- _ => inversion Hr; subst; clear Hr
  | Hr : Forall2 lt _ [] |- _ => inversion Hr; subst; clear Hr
  end.

Ltac range := repeat (apply in_range_cons; split; [lia|]); apply in_range_nil.

Lemma bdim_diag (a : nat) : bdim a a = Ok a.
Proof.
  unfold bdim. destruct (a =? 1); [reflexivity|].
  rewrite Nat.eqb_refl. reflexivity.
Qed.

Lemma bdim_1_l (b : nat) : bdim 1 b = Ok b.
Proof. reflexivity. Qed.

Lemma bdim_1_r (a : nat) : bdim a 1 = Ok a.
Proof.
  unfold bdim. destruct (a =? 1) eqn:Ha; [|reflexivity].
  apply Nat.eqb_eq in Ha. subst. reflexivity.
Qed.

Lemma bcoord (d i : nat) : i < d -> (if d =? 1 then 0 else i) = i.
Proof.
  intros Hi. destruct (d =? 1) eqn:Hd; [|reflexivity].
  apply Nat.eqb_eq in Hd. lia.
Qed.

Lemma in_range_insert_at (ax j : nat) (idx s : list nat) :
  ax < length s -> in_range idx (remove_at ax s) -> j < nth ax s 0 ->
  in_range (insert_at ax j idx) s.
Proof.
  intros Hax Hr Hj. unfold remove_at, in_range in Hr.
  apply Forall2_app_inv_r in Hr as (i1 & i2 & H1 & H2 & ->).
  assert (Hl : length i1 = ax).
  { rewrite (in_range_length H1), length_firstn. lia. }
  unfold insert_at.
  rewrite firstn_app, skipn_app, Hl, Nat.sub_diag, firstn_all2, skipn_all2
    by lia.
  simpl. rewrite app_nil_r.
  rewrite <- (firstn_skipn ax s) at 1.
  apply in_range_app; [assumption|].
  destruct (skipn ax s) as [|d s'] eqn:Hsk.
  - apply (f_equal (@length nat)) in Hsk. rewrite length_skipn in Hsk.
    simpl in Hsk. lia.
  - assert (Hd : nth ax s 0 = d).
    { rewrite <- (firstn_skipn ax s), Hsk.
      rewrite app_nth2; rewrite length_firstn; [|lia].
      replace (ax - Nat.min ax (length s)) with 0 by lia. reflexivity. }
    assert (Hs' : skipn (S ax) s = s').
    { replace (S ax) with (1 + ax) by lia.
      rewrite <- skipn_skipn, Hsk. reflexivity. }
    apply in_range_cons. split; [lia|]. rewrite <- Hs'. assumption.
Qed.

Section BackendFacts.
Context {A : Type} `{Scalar A}.

Lemma dot_has (x w : tensor A) (N D K C : nat) :
  shape x = [N; D] -> shape w = [K; D; C] ->
  exists t, K.dot x w = Ok t /\
    has t [N; K; C] (fun idx =>
      ref_activation x w (nth 0 idx 0) (nth 1 idx 0) (nth 2 idx 0)).
Proof.
  intros Hx Hw. unfold K.dot. rewrite Hx, Hw. simpl.
  rewrite Nat.eqb_refl. eexists. split; [reflexivity|].
  eapply has_ext; [apply has_build|].
  intros idx Hr. inv_range. simpl.
  unfold ref_activation. rewrite Hx. reflexivity.
Qed.

Lemma reshape_has (t : tensor A) (N K C : nat) (f : list nat -> A) :
  has t [N; K; C] f -> 1 <= K -> 1 <= C ->
  K.reshape t [(-1)%Z; Z.of_nat K; Z.of_nat C] = Ok t.
Proof.
  intros (Hs & Hw & _) HK HC. unfold K.reshape, K.resolve_shape.
  unfold wf in Hw. rewrite Hs in Hw. simpl in Hw.
  assert (HKl : (Z.of_nat K <? -1)%Z = false) by (apply Z.ltb_ge; lia).
  assert (HCl : (Z.of_nat C <? -1)%Z = false) by (apply Z.ltb_ge; lia).
  assert (HKp : (0 <=? Z.of_nat K)%Z = true) by (apply Z.leb_le; lia).
  assert (HCp : (0 <=? Z.of_nat C)%Z = true) by (apply Z.leb_le; lia).
  assert (HKm : (Z.of_nat K =? -1)%Z = false) by (apply Z.eqb_neq; lia).
  assert (HCm : (Z.of_nat C =? -1)%Z = false) by (apply Z.eqb_neq; lia).
  cbn [existsb filter fold_right length map].
  change (-1 <? -1)%Z with false. change (0 <=? -1)%Z with false.
  change (-1 =? -1)%Z with true.
  rewrite HKl, HCl, HKp, HCp, HKm, HCm.
  cbn [orb filter fold_right length].
  set (known := (Z.of_nat K * (Z.of_nat C * 1))%Z).
  assert (Hn : Z.of_nat (length (data t)) = (Z.of_nat N * known)%Z).
  { rewrite Hw. subst known. lia. }
  assert (Hk : known <> 0%Z) by (subst known; lia).
  rewrite Hn, Z.mod_mul, Z.div_mul by assumption.
  replace (known =? 0)%Z with false by (symmetry; apply Z.eqb_neq; assumption).
  cbn [orb negb Z.eqb bind]. rewrite !Nat2Z.id.
  destruct t as [s d]. simpl in *. subst s. reflexivity.
Qed.

Lemma expand_dims_last_has (t : tensor A) (N K C : nat) (f : list nat -> A) :
  has t [N; K; C] f ->
  exists t', K.expand_dims t 3 = Ok t' /\
    has t' [N; K; C; 1] (fun idx => f (firstn 3 idx)).
Proof.
  intros (Hs & Hw & Hg). unfold K.expand_dims. rewrite Hs. simpl.
  eexists. split; [reflexivity|]. split; [reflexivity|]. split.
  - unfold wf in *. rewrite Hs in Hw. simpl in *. lia.
  - intros idx Hr. inv_range. simpl.
    rewrite <- Hg by range.
    unfold get. rewrite Hs. simpl. f_equal. lia.
Qed.

Lemma expand_dims_first_has (t : tensor A) (s : list nat)
    (f : list nat -> A) :
  has t s f ->
  exists t', K.expand_dims t 0 = Ok t' /\
    has t' (1 :: s) (fun idx => f (tl idx)).
Proof.
  intros (<- & Hw & Hg). unfold K.expand_dims. simpl.
  eexists. split; [reflexivity|].
  split; [reflexivity|]. split.
  - unfold wf in *. simpl. fold (size (shape t)). lia.
  - intros [|i idx] Hr; apply in_range_length in Hr as Hl;
      [discriminate|].
    apply in_range_cons in Hr as [Hi Hr]. simpl.
    rewrite <- Hg by assumption.
    unfold get. simpl. fold (size (shape t)).
    replace i with 0 by lia. reflexivity.
Qed.

Lemma permute_dimensions_has (t : tensor A) (N K C : nat)
    (f : list nat -> A) :
  has t [N; K; C] f ->
  exists p, K.permute_dimensions t [1; 2; 0] = Ok p /\
    has p [K; C; N] (fun idx =>
      f [nth 2 idx 0; nth 0 idx 0; nth 1 idx 0]).
Proof.
  intros (Hs & Hw & Hg). unfold K.permute_dimensions. rewrite Hs. simpl.
  eexists. split; [reflexivity|].
  eapply has_ext; [apply has_build|].
  intros idx Hr. inv_range. simpl. apply Hg. range.
Qed.

Lemma tsub_has (a b : tensor A) (N K C : nat) (f g : list nat -> A) :
  has a [N; K; C; 1] f -> has b [1; K; C; N] g ->
  exists d, K.tsub a b = Ok d /\
    has d [N; K; C; N] (fun idx =>
      sub (f [nth 0 idx 0; nth 1 idx 0; nth 2 idx 0; 0])
          (g [0; nth 1 idx 0; nth 2 idx 0; nth 3 idx 0])).
Proof.
  intros (Hsa & Hwa & Hga) (Hsb & Hwb & Hgb).
  unfold K.tsub, K.broadcast2, broadcast_shape. rewrite Hsa, Hsb.
  cbn [rev app bshape_rev].
  rewrite bdim_1_l, !bdim_diag, bdim_1_r. cbn [bind rev app].
  eexists. split; [reflexivity|].
  eapply has_ext; [apply has_build|].
  intros idx Hr. inv_range. unfold bindex. simpl.
  rewrite !bcoord by assumption.
  rewrite Hga, Hgb by range. reflexivity.
Qed.

Lemma sum_has (x : tensor A) (s : list nat) (f : list nat -> A)
    (axis : nat) :
  has x s f -> axis < length s ->
  exists r, K.sum x axis = Ok r /\
    has r (remove_at axis s) (fun idx =>
      sum_upto (nth axis s 0) (fun j => f (insert_at axis j idx))).
Proof.
  intros (Hs & Hw & Hg) Hax. unfold K.sum. rewrite Hs.
  replace (axis <? length s) with true
    by (symmetry; apply Nat.ltb_lt; assumption).
  eexists. split; [reflexivity|].
  eapply has_ext; [apply has_build|].
  intros idx Hr. apply sum_upto_ext. intros j Hj.
  apply Hg. apply in_range_insert_at; assumption.
Qed.
End BackendFacts.

(** ** The layer, step by step *)

Section StepFacts.
Context {A : Type} `{Scalar A}.
Import MinibatchDiscrimination.

Lemma activation_has (self : layer A) (x w : tensor A) (N D K C : nat) :
  built self w K D C -> shape x = [N; D] -> 1 <= K -> 1 <= C ->
  exists a, activation self x = Ok a /\
    has a [N; K; C] (fun idx =>
      ref_activation x w (nth 0 idx 0) (nth 1 idx 0) (nth 2 idx 0)).
Proof.
  intros (HW & Hw & Hnk & Hkd) Hx HK HC.
  destruct (dot_has x w Hx Hw) as (xw & Hdot & Hxw).
  unfold activation. rewrite HW, Hdot, Hnk, Hkd. cbn [bind].
  rewrite (reshape_has Hxw HK HC). exists xw. split; [reflexivity|].
  assumption.
Qed.

Lemma diffs_has (a : tensor A) (N K C : nat) (f : list nat -> A) :
  has a [N; K; C] f ->
  exists d, diffs a = Ok d /\
    has d [N; K; C; N] (fun idx =>
      sub (f [nth 0 idx 0; nth 1 idx 0; nth 2 idx 0])
          (f [nth 3 idx 0; nth 1 idx 0; nth 2 idx 0])).
Proof.
  intros Ha.
  destruct (expand_dims_last_has Ha) as (a1 & Ha1 & Hh1).
  destruct (permute_dimensions_has Ha) as (p & Hp & Hhp).
  destruct (expand_dims_first_has Hhp) as (b & Hb & Hhb).
  destruct (tsub_has Hh1 Hhb) as (d & Hd & Hhd).
  unfold diffs. rewrite Ha1, Hp. cbn [bind]. rewrite Hb. cbn [bind].
  exists d. split; [assumption|].
  eapply has_ext; [exact Hhd|].
  intros idx Hr. inv_range. reflexivity.
Qed.

Lemma abs_diffs_has (d : tensor A) (N K C M : nat) (g : list nat -> A) :
  has d [N; K; C; M] g ->
  exists ad, abs_diffs d = Ok ad /\
    has ad [N; K; M] (fun idx =>
      sum_upto C (fun c =>
        sabs (g [nth 0 idx 0; nth 1 idx 0; c; nth 2 idx 0]))).
Proof.
  intros Hd.
  assert (Hax : 2 < length [N; K; C; M]) by (simpl; lia).
  destruct (sum_has (has_tmap sabs Hd) Hax) as (ad & Had & Hh).
  exists ad. split; [exact Had|].
  eapply has_ext; [exact Hh|].
  intros idx Hr. inv_range. reflexivity.
Qed.

Lemma minibatch_features_has (ad : tensor A) (N K M : nat)
    (g : list nat -> A) :
  has ad [N; K; M] g ->
  exists out, minibatch_features ad = Ok out /\
    has out [N; K] (fun idx =>
      sum_upto M (fun m =>
        sexp (neg (g [nth 0 idx 0; nth 1 idx 0; m])))).
Proof.
  intros Had.
  assert (Hax : 2 < length [N; K; M]) by (simpl; lia).
  destruct (sum_has (has_tmap sexp (has_tmap neg Had)) Hax)
    as (out & Hout & Hh).
  exists out. split; [exact Hout|].
  eapply has_ext; [exact Hh|].
  intros idx Hr. inv_range. reflexivity.
Qed.

Lemma call_distances (self : layer A) (x : tensor A) :
  call self x = (ad <- distances self x ;; minibatch_features ad).
Proof.
  unfold call, distances.
  destruct (activation self x) as [a|e]; [|reflexivity]. cbn [bind].
  destruct (diffs a) as [d|e]; reflexivity.
Qed.

Lemma distances_has (self : layer A) (x w : tensor A) (N D K C : nat) :
  built self w K D C -> shape x = [N; D] -> 1 <= K -> 1 <= C ->
  exists ad, distances self x = Ok ad /\
    has ad [N; K; N] (fun idx =>
      ref_dist x w (nth 0 idx 0) (nth 2 idx 0) (nth 1 idx 0)).
Proof.
  intros Hb Hx HK HC.
  destruct (activation_has x Hb Hx HK HC) as (a & Ha & Hha).
  destruct (diffs_has Hha) as (d & Hd & Hhd).
  destruct (abs_diffs_has Hhd) as (ad & Had & Hhad).
  unfold distances. rewrite Ha. cbn [bind]. rewrite Hd. cbn [bind].
  exists ad. split; [assumption|].
  eapply has_ext; [exact Hhad|].
  intros idx Hr. inv_range. simpl.
  unfold ref_dist, ref_difference.
  destruct Hb as (_ & Hw & _). rewrite Hw. reflexivity.
Qed.

Lemma call_has (self : layer A) (x w : tensor A) (N D K C : nat) :
  built self w K D C -> shape x = [N; D] -> 1 <= K -> 1 <= C ->
  exists out, call self x = Ok out /\
    has out [N; K] (fun idx =>
      ref_output x w (nth 0 idx 0) (nth 1 idx 0)).
Proof.
  intros Hb Hx HK HC.
  destruct (distances_has x Hb Hx HK HC) as (ad & Had & Hhad).
  destruct (minibatch_features_has Hhad) as (out & Hout & Hhout).
  rewrite call_distances, Had. cbn [bind].
  exists out. split; [assumption|].
  eapply has_ext; [exact Hhout|].
  intros idx Hr. inv_range. simpl.
  unfold ref_output, ref_kernel. rewrite Hx. reflexivity.
Qed.

(** C1. For an input batch of shape (N, D) and a layer built with
    projection weights of shape (K, D, C), K and C positive, the tensor
    composition of [call] returns exactly the array of the five-step
    reference algorithm of the specification: projection, pairwise
    difference, L1 distance, exp(-dist), and the sum over all m
    (m = n included). *)
Theorem call_refines_reference (self : layer A) (x w : tensor A)
    (N D K C : nat) :
  built self w K D C -> shape x = [N; D] -> 1 <= K -> 1 <= C ->
  call self x = Ok (reference x w).
Proof.
  intros Hb Hx HK HC.
  destruct (call_has x Hb Hx HK HC) as (out & Hout & Hh).
  rewrite Hout. f_equal.
  apply (has_unique Hh).
  unfold reference. destruct Hb as (_ & Hw & _). rewrite Hx, Hw. simpl.
  apply has_build.
Qed.

(** C2. For a valid input batch of shape (N, D) and weights of shape
    (K, D, C), [call] returns an array of shape (N, K), and
    [compute_output_shape] reports that shape,
    (input_shape[0], nb_kernels). *)
Theorem call_output_shape (self : layer A) (x w : tensor A)
    (N D K C : nat) :
  built self w K D C -> shape x = [N; D] -> 1 <= K -> 1 <= C ->
  exists out,
    call self x = Ok out /\ shape out = [N; K] /\ wf out /\
    compute_output_shape self (keras_shape (shape x))
      = Ok (Some (Z.of_nat N), Z.of_nat K).
Proof.
  intros Hb Hx HK HC.
  destruct (call_has x Hb Hx HK HC) as (out & Hout & Hs & Hw & _).
  exists out. repeat split; try assumption.
  destruct Hb as (_ & _ & Hnk & _).
  rewrite Hx. simpl. rewrite Hnk. reflexivity.
Qed.
End StepFacts.

(** ** Sums *)

Section SumFacts.
Context {A : Type} `{Scalar A}.

Lemma sum_upto_S (n : nat) (f : nat -> A) :
  sum_upto (S n) f = add (sum_upto n f) (f n).
Proof.
  unfold sum_upto, sum_list.
  rewrite seq_S, map_app, fold_left_app. reflexivity.
Qed.

Lemma has_self (t : tensor A) : wf t -> has t (shape t) (get t).
Proof. intros Hw. repeat split. assumption. Qed.
End SumFacts.

Section RealSums.
Local Open Scope R_scope.

Lemma sum_upto_le (n : nat) (f g : nat -> R) :
  (forall j, (j < n)%nat -> f j <= g j) -> sum_upto n f <= sum_upto n g.
Proof.
  induction n as [|n IH]; intros Hfg.
  - apply Rle_refl.
  - rewrite !sum_upto_S. simpl.
    assert (sum_upto n f <= sum_upto n g) by (apply IH; intros; apply Hfg; lia).
    assert (f n <= g n) by (apply Hfg; lia).
    lra.
Qed.

(** ** Distances and kernels of the reference algorithm *)

Variables x w : tensor R.

Lemma ref_dist_sym (n m k : nat) : ref_dist x w n m k = ref_dist x w m n k.
Proof.
  unfold ref_dist. apply sum_upto_ext. intros c _.
  unfold ref_difference. simpl. apply Rabs_minus_sym.
Qed.

End RealSums.

(** ** The layer over the real numbers *)

Section RealLayer.
Local Open Scope R_scope.
Import MinibatchDiscrimination.

(** C6. The pairwise L1 distances that [call] computes are symmetric in
    the two sample indices; [abs_diffs] stores the distance of samples
    [n] and [m] for kernel [k] at index [n, k, m]. *)
Theorem distances_symmetric (self : layer R) (x w : tensor R)
    (N D K C : nat) :
  built self w K D C -> shape x = [N; D] -> (1 <= K)%nat ->
  (1 <= C)%nat ->
  exists ad,
    distances self x = Ok ad /\ shape ad = [N; K; N] /\
    forall n m k, (n < N)%nat -> (m < N)%nat -> (k < K)%nat ->
      get ad [n; k; m] = get ad [m; k; n].
Proof.
  intros Hb Hx HK HC.
  destruct (distances_has x Hb Hx HK HC) as (ad & Had & Hs & Hw & Hg).
  exists ad. split; [assumption|]. split; [assumption|].
  intros n m k Hn Hm Hk. rewrite !Hg by range. simpl.
  apply ref_dist_sym.
Qed.

(** C8. The aggregation step is antitone in the distances: if [dist'] is
    at least [dist] at every off-diagonal pair of samples and both are 0
    on the diagonal, every entry aggregated from [dist'] is at most the
    entry aggregated from [dist]. *)
Theorem aggregation_antitone (dist dist' : tensor R) (N K : nat) :
  shape dist = [N; K; N] -> wf dist ->
  shape dist' = [N; K; N] -> wf dist' ->
  (forall n m k, (n < N)%nat -> (m < N)%nat -> (k < K)%nat -> n <> m ->
     get dist [n; k; m] <= get dist' [n; k; m]) ->
  (forall n k, (n < N)%nat -> (k < K)%nat ->
     get dist [n; k; n] = 0 /\ get dist' [n; k; n] = 0) ->
  exists out out',
    minibatch_features dist = Ok out /\
    minibatch_features dist' = Ok out' /\
    forall n k, (n < N)%nat -> (k < K)%nat ->
      get out' [n; k] <= get out [n; k].
Proof.
  intros Hs Hw Hs' Hw' Hoff Hdiag.
  pose proof (has_self Hw) as Hh. rewrite Hs in Hh.
  pose proof (has_self Hw') as Hh'. rewrite Hs' in Hh'.
  destruct (minibatch_features_has Hh) as (out & Hout & _ & _ & Hg).
  destruct (minibatch_features_has Hh') as (out' & Hout' & _ & _ & Hg').
  exists out, out'. split; [assumption|]. split; [assumption|].
  intros n k Hn Hk. rewrite Hg, Hg' by range. simpl.
  apply sum_upto_le. intros m Hm.
  destruct (Nat.eq_dec n m) as [->|Hnm].
  - destruct (Hdiag m k Hm Hk) as [-> ->]. apply Rle_refl.
  - specialize (Hoff n m k Hn Hm Hk Hnm).
    destruct Hoff as [Hlt|Heq].
    + left. apply exp_increasing. lra.
    + rewrite Heq. apply Rle_refl.
Qed.
End RealLayer.

Section Scenario.
Local Open Scope R_scope.
Import MinibatchDiscrimination.

(** C5. On the concrete scenario (N=2, D=3, K=1, C=1, weights
    [[[1],[0],[0]]], batch [[1,0,0],[3,0,0]]) the activation is
    [[1],[3]], the distances are 2 between the two samples and 0 from a
    sample to itself, and the output is [1+exp(-2), 1+exp(-2)]. *)
Theorem scenario_values :
  activation scenario_layer scenario_batch
    = Ok (mkTensor [2; 1; 1]%nat [1; 3]) /\
  distances scenario_layer scenario_batch
    = Ok (mkTensor [2; 1; 2]%nat [0; 2; 2; 0]) /\
  call scenario_layer scenario_batch
    = Ok (mkTensor [2; 1]%nat [1 + exp (-2); 1 + exp (-2)]).
Proof.
  assert (E1 : 0 + 1 * 1 + 0 * 0 + 0 * 0 = 1) by lra.
  assert (E3 : 0 + 3 * 1 + 0 * 0 + 0 * 0 = 3) by lra.
  assert (A11 : 0 + Rabs (1 - 1) = 0)
    by (unfold Rabs; destruct Rcase_abs; lra).
  assert (A13 : 0 + Rabs (1 - 3) = 2)
    by (unfold Rabs; destruct Rcase_abs; lra).
  assert (A31 : 0 + Rabs (3 - 1) = 2)
    by (unfold Rabs; destruct Rcase_abs; lra).
  assert (A33 : 0 + Rabs (3 - 3) = 0)
    by (unfold Rabs; destruct Rcase_abs; lra).
  repeat split; cbv -[Rplus Rmult Rminus Rabs Ropp exp IZR];
    rewrite ?E1, ?E3, ?A11, ?A13, ?A31, ?A33; try reflexivity.
  rewrite Ropp_0, exp_0.
  replace (- (2)) with (-2) by lra.
  replace (0 + 1 + exp (-2)) with (1 + exp (-2)) by lra.
  replace (0 + exp (-2) + 1) with (1 + exp (-2)) by lra.
  reflexivity.
Qed.
End Scenario.

(** ** [split_data] *)

Section SplitDataFacts.
Context {A : Type} `{Scalar A}.

Lemma hsplit_has (x : tensor A) (N D t : nat) (f : list nat -> A) :
  has x [N; D] f -> t < D ->
  exists a b, np.hsplit x t = Ok (a, b) /\
    has a [N; t] f /\
    has b [N; D - t] (fun idx => f [nth 0 idx 0; nth 1 idx 0 + t]).
Proof.
  intros (Hs & Hw & Hg) Ht. unfold np.hsplit, np.slice_axis.
  rewrite Hs, Nat.min_l by lia. cbn [replace_at firstn skipn app].
  rewrite Nat.sub_0_r.
  eexists. eexists. split; [reflexivity|]. split.
  - eapply has_ext; [apply has_build|].
    intros idx Hr. inv_range. cbn [nth firstn skipn app].
    rewrite Nat.add_0_r. apply Hg. range.
  - eapply has_ext; [apply has_build|].
    intros idx Hr. inv_range. cbn [nth firstn skipn app].
    apply Hg. range.
Qed.

Lemma vstack_has (a b : tensor A) (Na Nb t : nat) :
  shape a = [Na; t] -> wf a -> shape b = [Nb; t] -> wf b ->
  exists c, np.vstack a b = Ok c /\ shape c = [Na + Nb; t] /\ wf c /\
    (forall r j, r < Na -> j < t -> get c [r; j] = get a [r; j]) /\
    (forall r j, r < Nb -> j < t -> get c [Na + r; j] = get b [r; j]).
Proof.
  intros Hsa Hwa Hsb Hwb. unfold np.vstack. rewrite Hsa, Hsb.
  cbn [np.atleast_2d].
  destruct (list_eq_dec Nat.eq_dec [t] [t]) as [_|Hne]; [|congruence].
  eexists. split; [reflexivity|]. split; [reflexivity|].
  unfold wf in *. rewrite Hsa in Hwa. rewrite Hsb in Hwb. simpl in *.
  split; [rewrite length_app; lia|]. split.
  - intros r j Hr Hj. unfold get. rewrite Hsa. simpl.
    apply app_nth1. nia.
  - intros r j Hr Hj. unfold get. rewrite Hsb. simpl.
    rewrite app_nth2 by nia. f_equal. nia.
Qed.

Lemma split_data_none (fuel : nat) (dataset : tensor A) (N D t : nat) :
  shape dataset = [N; D] -> D < t ->
  split_data (S fuel) dataset t = Some (Ok None).
Proof.
  intros Hs Ht. simpl. rewrite Hs.
  replace (D <? t) with true by (symmetry; apply Nat.ltb_lt; assumption).
  reflexivity.
Qed.

Lemma div_step (D t : nat) : 1 <= t -> t <= D -> D / t = S ((D - t) / t).
Proof.
  intros Ht HD.
  replace D with ((D - t) + 1 * t) at 1 by lia.
  rewrite Nat.div_add by lia. lia.
Qed.

Lemma split_data_has (t : nat) :
  1 <= t ->
  forall fuel (dataset : tensor A) (N D : nat) (f : list nat -> A),
    has dataset [N; D] f -> t <= D -> D / t < fuel ->
    exists out,
      split_data fuel dataset t = Some (Ok (Some out)) /\
      shape out = [N * (D / t); t] /\ wf out /\
      forall q i j, q < D / t -> i < N -> j < t ->
        get out [q * N + i; j] = f [i; q * t + j].
Proof.
  intros Ht. induction fuel as [|fuel IH];
    intros dataset N D f Hh HD Hfuel; [lia|].
  pose proof Hh as (Hs & Hw & Hg).
  cbn [split_data]. rewrite Hs.
  replace (D <? t) with false by (symmetry; apply Nat.ltb_ge; assumption).
  destruct (D =? t) eqn:HDt.
  - apply Nat.eqb_eq in HDt. subst D.
    rewrite Nat.div_same, Nat.mul_1_r by lia.
    exists dataset. split; [reflexivity|]. split; [assumption|].
    split; [assumption|].
    intros q i j Hq Hi Hj. assert (q = 0) by lia. subst q. simpl.
    apply Hg. range.
  - apply Nat.eqb_neq in HDt.
    destruct (hsplit_has (t := t) Hh) as (a & b & Hsplit & Ha & Hb);
      [lia|].
    rewrite Hsplit.
    rewrite (div_step Ht HD) in *.
    destruct Ha as (Hsa & Hwa & Hga).
    destruct (Nat.lt_ge_cases (D - t) t) as [Hlast|Hmore].
    + (* the remainder is narrower than [t]: it is dropped *)
      destruct fuel as [|fuel]; [lia|].
      rewrite (split_data_none fuel b (proj1 Hb) Hlast).
      rewrite (Nat.div_small (D - t) t) by assumption.
      exists a. split; [reflexivity|].
      split; [rewrite Hsa, Nat.mul_1_r; reflexivity|].
      split; [assumption|].
      intros q i j Hq Hi Hj. assert (q = 0) by lia. subst q. simpl.
      apply Hga. range.
    + destruct (IH _ _ _ _ Hb Hmore) as (rest & Hrest & Hsr & Hwr & Hgr);
        [lia|].
      rewrite Hrest.
      destruct (vstack_has Hsa Hwa Hsr Hwr)
        as (c & Hc & Hsc & Hwc & Hfirst & Hsecond).
      rewrite Hc. cbn [bind].
      exists c. split; [reflexivity|].
      split; [rewrite Hsc; f_equal; lia|].
      split; [assumption|].
      intros q i j Hq Hi Hj. destruct q as [|q].
      * simpl. rewrite Hfirst by assumption. apply Hga. range.
      * replace (S q * N + i) with (N + (q * N + i)) by lia.
        rewrite Hsecond by nia.
        rewrite Hgr by lia. cbn [nth]. f_equal. f_equal. f_equal. lia.
Qed.

(** C9. For a 2-dimensional dataset of N rows and D columns and
    [timesteps] t >= 1, [split_data] returns (a recursion budget above
    D / t is enough): [None] exactly when D < t, and otherwise an array of
    N * (D / t) rows and t columns whose q-th block of N rows is the q-th
    slice of t columns of the dataset; columns beyond the last full slice
    do not appear. *)
Theorem split_data_spec (dataset : tensor A) (N D t fuel : nat) :
  shape dataset = [N; D] -> wf dataset -> 1 <= t -> D / t < fuel ->
  exists r,
    split_data fuel dataset t = Some (Ok r) /\
    (r = None <-> D < t) /\
    (t <= D ->
     exists out,
       r = Some out /\ shape out = [N * (D / t); t] /\ wf out /\
       forall q i j, q < D / t -> i < N -> j < t ->
         get out [q * N + i; j] = get dataset [i; q * t + j]).
Proof.
  intros Hs Hw Ht Hfuel.
  destruct (Nat.lt_ge_cases D t) as [Hlt|Hge].
  - destruct fuel as [|fuel]; [lia|].
    exists None. split; [apply (split_data_none fuel dataset Hs Hlt)|].
    split; [tauto|]. lia.
  - pose proof (has_self Hw) as Hh. rewrite Hs in Hh.
    destruct (split_data_has Ht Hh Hge Hfuel) as (out & Hout & Hrest).
    exists (Some out). split; [assumption|].
    split; [split; [discriminate|lia]|].
    intros _. exists out. split; [reflexivity|]. assumption.
Qed.
End SplitDataFacts.

(** ** Batches whose samples project alike *)

Section EqualRows.
Context {A : Type} `{Scalar A}.
Import MinibatchDiscrimination.

Lemma sum_upto_zeros (n : nat) (f : nat -> A) :
  add zero zero = zero -> (forall j, j < n -> f j = zero) ->
  sum_upto n f = zero.
Proof.
  intros Hz. induction n as [|n IH]; intros Hf.
  - reflexivity.
  - rewrite sum_upto_S, IH by (intros j Hj; apply Hf; lia).
    rewrite Hf by lia. exact Hz.
Qed.

(** When the projections of any two samples of the batch differ by exactly
    zero, every distance is zero and every entry of the output is the sum of
    N terms [exp(-0)]. *)
Lemma equal_rows_output (self : layer A) (x w : tensor A) (N D K C : nat) :
  built self w K D C -> shape x = [N; D] -> 1 <= K -> 1 <= C ->
  add zero zero = zero ->
  (forall n m k c, n < N -> m < N -> k < K -> c < C ->
     sabs (sub (ref_activation x w n k c) (ref_activation x w m k c))
     = zero) ->
  exists out,
    call self x = Ok out /\ shape out = [N; K] /\
    forall n k, n < N -> k < K ->
      get out [n; k] = sum_upto N (fun _ => unit_term).
Proof.
  intros Hb Hx HK HC Hz Hd.
  destruct (call_has x Hb Hx HK HC) as (out & Hout & Hs & Hw & Hg).
  exists out. split; [assumption|]. split; [assumption|].
  intros n k Hn Hk. rewrite Hg by range. cbn [nth].
  unfold ref_output. rewrite Hx. cbn [nth].
  apply sum_upto_ext. intros m Hm.
  unfold ref_kernel, unit_term. do 2 f_equal.
  unfold ref_dist. destruct Hb as (_ & Hsw & _). rewrite Hsw. cbn [nth].
  apply sum_upto_zeros; [assumption|].
  intros c Hc. unfold ref_difference. apply Hd; assumption.
Qed.

(** X10. On a collapsed batch, all of whose samples are equal, when the
    projections differ from themselves by exactly zero (as finite numbers
    do), every entry of the output is the sum of N terms [exp(-0)]: N ones
    added up. *)
Theorem call_collapsed_batch_ones (self : layer A) (x w : tensor A)
    (N D K C : nat) :
  built self w K D C -> shape x = [N; D] -> 1 <= K -> 1 <= C ->
  (forall n d, n < N -> d < D -> get x [n; d] = get x [0; d]) ->
  add zero zero = zero ->
  (forall k c, k < K -> c < C ->
     sabs (sub (ref_activation x w 0 k c) (ref_activation x w 0 k c))
     = zero) ->
  exists out,
    call self x = Ok out /\ shape out = [N; K] /\
    forall n k, n < N -> k < K ->
      get out [n; k] = sum_upto N (fun _ => unit_term).
Proof.
  intros Hb Hx HK HC Hrows Hz Hself.
  apply (equal_rows_output x Hb Hx HK HC Hz).
  intros n m k c Hn Hm Hk Hc.
  assert (Hrow : forall p, p < N ->
            ref_activation x w p k c = ref_activation x w 0 k c).
  { intros p Hp. unfold ref_activation. rewrite Hx. cbn [nth].
    apply sum_upto_ext. intros d Hd. rewrite Hrows by assumption.
    reflexivity. }
  rewrite (Hrow n Hn), (Hrow m Hm). apply Hself; assumption.
Qed.
End EqualRows.

(** ** Machine floats *)

Section FloatFacts.

Lemma SFcompare_antisym (a b : spec_float) :
  SFcompare b a = option_map CompOpp (SFcompare a b).
Proof.
  destruct a as [sa|sa| |sa ma ea], b as [sb|sb| |sb mb eb];
    try destruct sa; try destruct sb; try reflexivity;
    cbn [SFcompare option_map].
  all: rewrite (Z.compare_antisym ea eb);
    destruct (ea ?= eb)%Z; cbn [CompOpp]; try reflexivity;
    replace (Pos.compare_cont Eq mb ma)
      with (CompOpp (Pos.compare_cont Eq ma mb))
      by (rewrite Pos.compare_cont_antisym; reflexivity);
    reflexivity.
Qed.

Lemma SFcompare_some (a b : spec_float) :
  F32.is_nan a = false -> F32.is_nan b = false ->
  exists c, SFcompare a b = Some c.
Proof.
  destruct a as [sa|sa| |sa ma ea], b as [sb|sb| |sb mb eb];
    try discriminate; intros _ _; eexists; reflexivity.
Qed.

Lemma SFcompare_refl (a : spec_float) :
  F32.is_nan a = false -> SFcompare a a = Some Eq.
Proof.
  destruct a as [s|s| |s m e]; try discriminate; intros _.
  - reflexivity.
  - destruct s; reflexivity.
  - cbn [SFcompare]. rewrite Z.compare_refl.
    replace (Pos.compare_cont Eq m m) with Eq
      by (symmetry; apply Pos.compare_refl).
    destruct s; reflexivity.
Qed.

Lemma SFleb_refl (a : spec_float) :
  F32.is_nan a = false -> SFleb a a = true.
Proof. intros Ha. unfold SFleb. rewrite SFcompare_refl; auto. Qed.

Lemma SFltb_SFleb (a b : spec_float) : SFltb a b = true -> SFleb a b = true.
Proof.
  unfold SFltb, SFleb. destruct (SFcompare a b) as [[]|]; auto.
Qed.

Lemma SFleb_not_SFltb (a b : spec_float) :
  SFleb a b = true -> SFltb a b = false -> SFcompare a b = Some Eq.
Proof.
  unfold SFleb, SFltb. destruct (SFcompare a b) as [[]|]; auto; discriminate.
Qed.

Lemma SFeqb_sym (a b : spec_float) :
  SFcompare a b = Some Eq -> SFeqb b a = true.
Proof.
  intros Hc. unfold SFeqb. rewrite SFcompare_antisym, Hc. reflexivity.
Qed.

(** Rounding keeps the sign. *)
Lemma iter_shr_nonneg (p : positive) :
  forall mrs, (0 <= shr_m mrs)%Z -> (0 <= shr_m (iter_pos shr_1 p mrs))%Z.
Proof.
  assert (H1 : forall mrs, (0 <= shr_m mrs)%Z -> (0 <= shr_m (shr_1 mrs))%Z).
  { intros [m r s] Hm. simpl in *. destruct m as [|[q|q|]|q]; simpl; lia. }
  induction p as [p IH|p IH|]; intros mrs Hm; simpl; auto.
Qed.

Lemma shr_fexp_nonneg (prec emax m e : Z) (l : location) :
  (0 <= m)%Z -> (0 <= shr_m (fst (shr_fexp prec emax m e l)))%Z.
Proof.
  intros Hm. unfold shr_fexp, shr.
  assert (H0 : (0 <= shr_m (shr_record_of_loc m l))%Z).
  { destruct l as [|[]]; simpl; assumption. }
  destruct (fexp prec emax (Zdigits2 m + e) - e)%Z; simpl; try assumption.
  apply iter_shr_nonneg. assumption.
Qed.

Lemma binary_round_aux_sign (prec emax : Z) (sx : bool) (mx ex : Z)
    (lx : location) :
  (0 <= mx)%Z ->
  let r := binary_round_aux prec emax sx mx ex lx in
  r = S754_zero sx \/ r = S754_infinity sx \/
  exists m e, r = S754_finite sx m e.
Proof.
  intros Hm. cbv zeta. unfold binary_round_aux.
  pose proof (@shr_fexp_nonneg prec emax mx ex lx Hm) as H1.
  destruct (shr_fexp prec emax mx ex lx) as [mrs' e'] eqn:E1. simpl in H1.
  assert (H2 : (0 <= round_nearest_even (shr_m mrs')
                        (loc_of_shr_record mrs'))%Z).
  { unfold round_nearest_even.
    destruct (loc_of_shr_record mrs') as [|[]]; try lia.
    destruct (Z.even (shr_m mrs')); lia. }
  pose proof (@shr_fexp_nonneg prec emax _ e' loc_Exact H2) as H3.
  destruct (shr_fexp prec emax
              (round_nearest_even (shr_m mrs') (loc_of_shr_record mrs'))
              e' loc_Exact) as [mrs'' e''].
  simpl in H3. destruct (shr_m mrs'') as [|m|m]; [left; reflexivity| |lia].
  destruct (e'' <=? emax - prec)%Z;
    [right; right; eauto | right; left; reflexivity].
Qed.

Lemma binary_round_sign (prec emax : Z) (sx : bool) (mx : positive)
    (ex : Z) :
  let r := binary_round prec emax sx mx ex in
  r = S754_zero sx \/ r = S754_infinity sx \/
  exists m e, r = S754_finite sx m e.
Proof.
  cbv zeta. unfold binary_round.
  destruct (shl_align mx ex (fexp prec emax (Z.pos (digits2_pos mx) + ex)))
    as [mz ez].
  apply binary_round_aux_sign. lia.
Qed.

Lemma binary_round_opp (prec emax : Z) (sx : bool) (mx : positive)
    (ex : Z) :
  binary_round prec emax (negb sx) mx ex
  = SFopp (binary_round prec emax sx mx ex).
Proof.
  unfold binary_round.
  destruct (shl_align mx ex (fexp prec emax (Z.pos (digits2_pos mx) + ex)))
    as [mz ez].
  unfold binary_round_aux.
  destruct (shr_fexp prec emax (Z.pos mz) ez loc_Exact) as [mrs' e'].
  destruct (shr_fexp prec emax _ e' loc_Exact) as [mrs'' e''].
  destruct (shr_m mrs''); try reflexivity.
  destruct (e'' <=? emax - prec)%Z; reflexivity.
Qed.

Lemma of_float_opp (x : spec_float) :
  F32.of_float (SFopp x) = SFopp (F32.of_float x).
Proof.
  destruct x as [s|s| |s m e]; try reflexivity.
  apply binary_round_opp.
Qed.

(** Sums of numbers that are not negative are not negative, and never
    NaN. *)
Lemma add_nonneg32 (a b : spec_float) :
  F32.nonneg a -> F32.nonneg b -> F32.nonneg (F32.add a b).
Proof.
  intros Ha Hb. destruct Ha as [sa| |ma ea], Hb as [sb| |mb eb];
    try (cbn; constructor).
  - destruct sa, sb; cbn; constructor.
  - unfold F32.add, SFadd. cbn [cond_Zopp].
    destruct (shl_align ma ea (Z.min ea eb)) as [m1 e1].
    destruct (shl_align mb eb (Z.min ea eb)) as [m2 e2].
    cbn [fst Z.add binary_normalize].
    destruct (binary_round_sign F32.prec F32.emax false (m1 + m2)
                (Z.min ea eb))
      as [-> | [-> | (m' & e' & ->)]]; constructor.
Qed.

(** The difference of two finite numbers is a number. *)
Lemma sub_finite (a b : spec_float) :
  F32.is_finite a = true -> F32.is_finite b = true ->
  F32.is_nan (F32.sub a b) = false.
Proof.
  destruct a as [sa|sa| |sa ma ea], b as [sb|sb| |sb mb eb];
    try discriminate; intros _ _.
  - destruct sa, sb; reflexivity.
  - reflexivity.
  - reflexivity.
  - unfold F32.sub, SFsub.
    destruct (shl_align ma ea (Z.min ea eb)) as [m1 e1].
    destruct (shl_align mb eb (Z.min ea eb)) as [m2 e2].
    cbn [fst]. unfold binary_normalize.
    destruct (cond_Zopp sa (Z.pos m1) - cond_Zopp sb (Z.pos m2))%Z
      as [|p|p]; [reflexivity| |].
    + destruct (binary_round_sign F32.prec F32.emax false p (Z.min ea eb))
        as [-> | [-> | (m' & e' & ->)]]; reflexivity.
    + destruct (binary_round_sign F32.prec F32.emax true p (Z.min ea eb))
        as [-> | [-> | (m' & e' & ->)]]; reflexivity.
Qed.

Lemma abs_nonneg (a : spec_float) :
  F32.is_nan a = false -> F32.nonneg (SFabs a).
Proof. destruct a; try discriminate; intros _; constructor. Qed.

Lemma opp_nonneg (a : spec_float) : F32.nonneg a -> F32.nonpos (SFopp a).
Proof. intros Ha. destruct Ha; constructor. Qed.

(** A finite number differs from itself by exactly zero. *)
Lemma sub_self (a : spec_float) :
  F32.is_finite a = true -> SFabs (F32.sub a a) = F32.zero.
Proof.
  destruct a as [s|s| |s m e]; intros Hf; try discriminate.
  - destruct s; reflexivity.
  - unfold F32.sub, SFsub. rewrite Z.sub_diag. reflexivity.
Qed.

Lemma of_float_nonneg (cv : spec_float) :
  SFleb F32.zero cv = true -> F32.nonneg (F32.of_float cv).
Proof.
  destruct cv as [s|s| |s m e]; try discriminate; intros Hc.
  - constructor.
  - destruct s; [discriminate|]. constructor.
  - destruct s; [discriminate|]. cbn [F32.of_float].
    destruct (binary_round_sign F32.prec F32.emax false m e)
      as [-> | [-> | (m' & e' & ->)]]; constructor.
Qed.

Lemma clip_entry (c v : spec_float) :
  F32.nonneg c ->
  F32.entry_clipped c v (F32.minimum (F32.maximum v (SFopp c)) c).
Proof.
  intros Hc.
  assert (Hnc : F32.is_nan c = false) by (destruct Hc; reflexivity).
  assert (Hno : F32.is_nan (SFopp c) = false) by (destruct Hc; reflexivity).
  assert (Hlo : SFleb (SFopp c) c = true).
  { destruct Hc as [s| |m e]; try reflexivity. }
  assert (Hll : SFleb (SFopp c) (SFopp c) = true) by (apply SFleb_refl; auto).
  assert (Hcc : SFleb c c = true) by (apply SFleb_refl; auto).
  unfold F32.entry_clipped, F32.maximum, F32.minimum.
  destruct (F32.is_nan v) eqn:Hv.
  { destruct v; try discriminate. repeat split; try discriminate; auto. }
  split; [discriminate|].
  destruct (SFltb (SFopp c) v) eqn:E1.
  - rewrite Hv. destruct (SFltb v c) eqn:E2.
    + split; [intros _; split; apply SFltb_SFleb; assumption|].
      intros _ _. unfold SFeqb. rewrite SFcompare_refl; auto.
    + split; [intros _; split; assumption|].
      intros _ Hvc. apply SFeqb_sym. apply SFleb_not_SFltb; assumption.
  - rewrite Hno. destruct (SFltb (SFopp c) c) eqn:E2.
    + split; [intros _; split; assumption|].
      intros Hlv _. unfold SFeqb.
      rewrite (SFleb_not_SFltb _ _ Hlv E1). reflexivity.
    + split; [intros _; split; assumption|].
      intros Hlv _.
      pose proof (SFleb_not_SFltb _ _ Hlv E1) as Heq.
      destruct Hc as [s| |m e]; try discriminate E2.
      destruct v as [sv|sv| |sv mv ev]; try destruct sv; simpl in Heq;
        try discriminate Heq; reflexivity.
Qed.

Lemma Forall2_map_self {X Y : Type} (P : X -> Y -> Prop) (g : X -> Y)
    (l : list X) :
  (forall a, P a (g a)) -> Forall2 P l (map g l).
Proof.
  intros Hg. induction l as [|a l IH]; simpl; constructor; auto.
Qed.

(** C10, for binary32 weights.  For a Python float [clip_value >= 0],
    whose nearest binary32 number is [c], after [clip_weights] every layer
    holds, position by position, weight arrays of the same shapes; a NaN
    entry is still NaN, every other entry lies in [-c, c], and the entries
    that were already in that interval are unchanged. *)
Theorem clip_weights_float_spec (model : F32.Model)
    (clip_value : spec_float) :
  SFleb F32.zero clip_value = true ->
  Forall2 (F32.layer_clipped (F32.of_float clip_value))
          (F32.layers model)
          (F32.layers (F32.clip_weights model clip_value)).
Proof.
  intros Hc. unfold F32.clip_weights. cbn [F32.layers].
  apply Forall2_map_self. intros l.
  unfold F32.layer_clipped, F32.set_weights, F32.get_weights.
  cbn [F32.weights].
  apply Forall2_map_self. intros w. split; [reflexivity|].
  unfold F32.clip. cbn [data]. apply Forall2_map_self. intros v.
  rewrite of_float_opp. apply clip_entry. apply of_float_nonneg. assumption.
Qed.

(** C10 fails as stated: with [clip_value] a tenth, the weight a half is
    replaced by the binary32 number nearest to a tenth, which is more than a
    tenth, and a NaN weight is still NaN. *)
Lemma clip_weights_bound_rounded :
  SFleb F32.zero tenth = true /\
  F32.clip_weights float_model tenth
  = F32.mkModel
      [F32.mkLayer [mkTensor [3] [SFopp tenth32; tenth32; tenth32];
                    mkTensor [1; 1] [F32.nan]] true]
      true /\
  SFleb (F32.to_float tenth32) tenth = false /\
  SFleb F32.nan tenth = false.
Proof. repeat split. Qed.

Lemma of_float_negative (cv : spec_float) :
  SFltb cv F32.zero = true -> F32.nonpos (F32.of_float cv).
Proof.
  destruct cv as [s|s| |s m e]; try discriminate; intros Hc.
  - destruct s; [|discriminate]. constructor.
  - destruct s; [|discriminate]. cbn [F32.of_float].
    destruct (binary_round_sign F32.prec F32.emax true m e)
      as [-> | [-> | (m' & e' & ->)]]; constructor.
Qed.

Lemma clip_entry_negative (c v : spec_float) :
  F32.nonpos c -> F32.is_nan v = false ->
  F32.minimum (F32.maximum v (SFopp c)) c = c.
Proof.
  intros Hc Hv. unfold F32.maximum, F32.minimum.
  destruct Hc as [s| |m e]; try destruct s;
    destruct v as [sv|sv| |sv mv ev]; try discriminate Hv;
    try destruct sv; try reflexivity.
  cbn [F32.is_nan SFopp negb].
  destruct (SFltb (S754_finite false m e) (S754_finite false mv ev));
    reflexivity.
Qed.

(** X3. With a negative [clip_value] the interval is empty: every weight
    entry that is not NaN becomes the binary32 number nearest to
    [clip_value], and a NaN entry is still NaN. *)
Theorem clip_weights_negative_float (model : F32.Model)
    (clip_value : spec_float) :
  SFltb clip_value F32.zero = true ->
  Forall2 (fun l l' =>
    Forall2 (fun w w' =>
      shape w' = shape w /\
      Forall2 (fun v v' =>
                 if F32.is_nan v then v' = F32.nan
                 else v' = F32.of_float clip_value)
              (data w) (data w'))
      (F32.weights l) (F32.weights l'))
    (F32.layers model) (F32.layers (F32.clip_weights model clip_value)).
Proof.
  intros Hc. unfold F32.clip_weights. cbn [F32.layers].
  apply Forall2_map_self. intros l.
  unfold F32.set_weights, F32.get_weights. cbn [F32.weights].
  apply Forall2_map_self. intros w. split; [reflexivity|].
  unfold F32.clip. cbn [data]. apply Forall2_map_self. intros v.
  rewrite of_float_opp.
  destruct (F32.is_nan v) eqn:E.
  - destruct v; try discriminate. reflexivity.
  - apply clip_entry_negative; [|assumption].
    apply of_float_negative. assumption.
Qed.
End FloatFacts.

Section FloatLayer.
Variable exp_finite : bool -> positive -> Z -> spec_float.
Import MinibatchDiscrimination.

(** C4, for finite projections.  For a batch of one sample whose
    projections onto the kernels are finite binary32 numbers, every entry
    [OutputFeatures[0,k]] is exactly 1: the only term of the sum is the
    self-distance term exp(-0). *)
Theorem single_sample_output_finite (self : layer spec_float)
    (x w : tensor spec_float) (D K C : nat) :
  built self w K D C -> shape x = [1; D] -> 1 <= K -> 1 <= C ->
  (forall k c, k < K -> c < C ->
     F32.is_finite (F32.activation exp_finite x w 0 k c) = true) ->
  exists out,
    F32.call exp_finite self x = Ok out /\ shape out = [1; K] /\
    forall k, k < K -> F32.get exp_finite out [0; k] = F32.one.
Proof.
  intros Hb Hx HK HC Hfin.
  destruct (@equal_rows_output spec_float (F32.scalar exp_finite)
              self x w 1 D K C Hb Hx HK HC)
    as (out & Hout & Hs & Hg).
  - reflexivity.
  - intros n m k c Hn Hm Hk Hc.
    assert (n = 0) by lia. assert (m = 0) by lia. subst n m.
    apply sub_self. apply Hfin; assumption.
  - exists out. split; [assumption|]. split; [assumption|].
    intros k Hk. unfold F32.get. rewrite Hg by (assumption || lia).
    reflexivity.
Qed.
(** X12. For a batch whose projections onto the kernels are finite
    binary32 numbers, the distance that [call] computes from a sample to
    itself is exactly zero, for every kernel. *)
Theorem distances_zero_diagonal (self : layer spec_float)
    (x w : tensor spec_float) (N D K C : nat) :
  built self w K D C -> shape x = [N; D] -> 1 <= K -> 1 <= C ->
  (forall n k c, n < N -> k < K -> c < C ->
     F32.is_finite (F32.activation exp_finite x w n k c) = true) ->
  exists ad,
    F32.distances exp_finite self x = Ok ad /\ shape ad = [N; K; N] /\
    forall n k, n < N -> k < K -> F32.get exp_finite ad [n; k; n] = F32.zero.
Proof.
  intros Hb Hx HK HC Hfin.
  destruct (@distances_has spec_float (F32.scalar exp_finite)
              self x w N D K C Hb Hx HK HC)
    as (ad & Had & Hs & Hw & Hg).
  exists ad. split; [assumption|]. split; [assumption|].
  intros n k Hn Hk. unfold F32.get. rewrite Hg by range. cbn [nth].
  unfold ref_dist. destruct Hb as (_ & Hsw & _). rewrite Hsw. cbn [nth].
  apply (@sum_upto_zeros spec_float (F32.scalar exp_finite)); [reflexivity|].
  intros c Hc. unfold ref_difference.
  apply sub_self. apply Hfin; assumption.
Qed.
Lemma sum_upto_nonneg32 (n : nat) (f : nat -> spec_float) :
  (forall j, j < n -> F32.nonneg (f j)) ->
  F32.nonneg (@sum_upto spec_float (F32.scalar exp_finite) n f).
Proof.
  induction n as [|n IH]; intros Hf.
  - constructor.
  - rewrite sum_upto_S. apply add_nonneg32.
    + apply IH. intros j Hj. apply Hf. lia.
    + apply Hf. lia.
Qed.

(** X11. In binary32, for a batch whose projections onto the kernels are
    finite, and an exponential that is never negative or NaN on negative
    finite numbers, every entry of the output is a number that is not
    negative: it is never NaN. *)
Theorem call_not_nan (self : layer spec_float)
    (x w : tensor spec_float) (N D K C : nat) :
  built self w K D C -> shape x = [N; D] -> 1 <= K -> 1 <= C ->
  (forall n k c, n < N -> k < K -> c < C ->
     F32.is_finite (F32.activation exp_finite x w n k c) = true) ->
  (forall m e, F32.nonneg (exp_finite true m e)) ->
  exists out,
    F32.call exp_finite self x = Ok out /\ shape out = [N; K] /\
    forall n k, n < N -> k < K ->
      F32.nonneg (F32.get exp_finite out [n; k]) /\
      F32.is_nan (F32.get exp_finite out [n; k]) = false.
Proof.
  intros Hb Hx HK HC Hfin Hexp.
  destruct (@call_has spec_float (F32.scalar exp_finite)
              self x w N D K C Hb Hx HK HC)
    as (out & Hout & Hs & Hw & Hg).
  exists out. split; [assumption|]. split; [assumption|].
  intros n k Hn Hk.
  assert (Hnn : F32.nonneg (F32.get exp_finite out [n; k])).
  { unfold F32.get. rewrite Hg by range. cbn [nth].
    unfold ref_output. rewrite Hx. cbn [nth].
    apply sum_upto_nonneg32. intros m Hm.
    unfold ref_kernel.
    assert (Hd : F32.nonneg
                   (@ref_dist spec_float (F32.scalar exp_finite) x w n m k)).
    { unfold ref_dist. destruct Hb as (_ & Hsw & _). rewrite Hsw. cbn [nth].
      apply sum_upto_nonneg32. intros c Hc. unfold ref_difference.
      apply abs_nonneg. apply sub_finite; apply Hfin; assumption. }
    apply opp_nonneg in Hd. cbn [sexp neg F32.scalar].
    destruct Hd as [s| |m' e']; cbn [F32.exp];
      [constructor | constructor | apply Hexp]. }
  split; [assumption|]. destruct Hnn; reflexivity.
Qed.
End FloatLayer.

(** C4 fails as stated: for the single sample (3e38, 0, 0) and the weights
    (2, 0, 0) the projection overflows to infinity, its difference with
    itself is NaN, and the output is NaN, which is not 1. *)
Lemma single_sample_overflow_nan :
  built doubling_layer doubling_weights 1 3 1 /\
  shape overflow_batch = [1; 3] /\
  (forall exp_finite,
     F32.activation exp_finite overflow_batch doubling_weights 0 0 0
     = S754_infinity false /\
     F32.call exp_finite doubling_layer overflow_batch
     = Ok (mkTensor [1; 1] [F32.nan])) /\
  F32.nan <> F32.one.
Proof.
  split; [repeat split|]. split; [reflexivity|].
  split; [intros e; split; reflexivity | discriminate].
Qed.


(** ** Rounding to binary32 *)

Section Pow2.
Local Open Scope R_scope.

Lemma pow2_pos (e : Z) : 0 < powerRZ 2 e.
Proof. apply powerRZ_lt. lra. Qed.

Lemma pow2_add (a b : Z) : powerRZ 2 (a + b) = powerRZ 2 a * powerRZ 2 b.
Proof. apply powerRZ_add. lra. Qed.

Lemma pow2_succ (a : Z) : powerRZ 2 (a + 1) = 2 * powerRZ 2 a.
Proof. rewrite pow2_add. simpl. lra. Qed.

Lemma pow2_IZR (k : Z) : (0 <= k)%Z -> IZR (2 ^ k) = powerRZ 2 k.
Proof.
  intros Hk. destruct k as [|p|p]; [reflexivity| |lia].
  change (2 ^ Z.pos p)%Z with (Z.pow_pos 2 p).
  apply Zpower_pos_powerRZ.
Qed.

Lemma pow2_le (a b : Z) : (a <= b)%Z -> powerRZ 2 a <= powerRZ 2 b.
Proof.
  intros Hab. replace b with (a + (b - a))%Z by lia.
  rewrite pow2_add. rewrite <- (@pow2_IZR (b - a)) by lia.
  assert (H : (0 < 2 ^ (b - a))%Z) by (apply Z.pow_pos_nonneg; lia).
  assert (H1 : (1 <= 2 ^ (b - a))%Z) by lia.
  apply IZR_le in H1. pose proof (pow2_pos a). nra.
Qed.

Lemma pow2_le_inv (a b : Z) : powerRZ 2 a <= powerRZ 2 b -> (a <= b)%Z.
Proof.
  intros H. destruct (Z_le_gt_dec a b) as [|Hgt]; [assumption|].
  assert (H1 : powerRZ 2 (b + 1) <= powerRZ 2 a) by (apply pow2_le; lia).
  rewrite pow2_succ in H1. pose proof (pow2_pos b). lra.
Qed.

End Pow2.

Section Bits.
Local Open Scope Z_scope.







End Bits.

Section Values.
Local Open Scope R_scope.












End Values.

Section Round.
Local Open Scope R_scope.






End Round.

Section FloatSums.
Local Open Scope R_scope.






End FloatSums.

Section FloatRange.
Local Open Scope R_scope.
Variable exp_finite : bool -> positive -> Z -> spec_float.
Import MinibatchDiscrimination.



End FloatRange.

(** ** Construction of the layer *)

Section InitFacts.
Import MinibatchDiscrimination.

(** C3, as the constructor behaves: with [nb_kernels <= 0] or
    [kernel_dim <= 0] construction raises nothing; it returns a layer
    instance that stores the values it was given. *)
Theorem init_accepts_nonpositive (nb kd : Z) (idim : option Z) :
  (nb <= 0 \/ kd <= 0)%Z ->
  exists l : layer R,
    __init__ nb kd idim = Ok l /\
    nb_kernels l = nb /\ kernel_dim l = kd /\ W l = None.
Proof.
  intros _. eexists. split; [reflexivity|]. repeat split.
Qed.

(** C3 fails as stated: zero kernels are accepted at construction. *)
Lemma init_zero_kernels_not_rejected :
  (0 <= 0 \/ 1 <= 0)%Z /\
  ~ (exists e, __init__ (A := R) 0 1 None = Raise e).
Proof.
  split; [left; lia|]. intros [e He]. discriminate He.
Qed.
End InitFacts.

(** ** The statements at concrete inputs *)

Section Instances.
Import MinibatchDiscrimination.

Lemma scenario_built : built scenario_layer scenario_weights 1 3 1.
Proof. repeat split. Defined.

Lemma call_refines_reference_witness :
  built scenario_layer scenario_weights 1 3 1 /\
  shape scenario_batch = [2; 3] /\ 1 <= 1 /\ 1 <= 1 /\
  call scenario_layer scenario_batch
    = Ok (reference scenario_batch scenario_weights).
Proof.
  split; [exact scenario_built|]. split; [reflexivity|]. split; [lia|].
  split; [lia|].
  apply (@call_refines_reference R _ scenario_layer scenario_batch
           scenario_weights 2 3 1 1);
    [exact scenario_built | reflexivity | lia | lia].
Defined.

Lemma call_output_shape_witness :
  built scenario_layer scenario_weights 1 3 1 /\
  shape scenario_batch = [2; 3] /\ 1 <= 1 /\ 1 <= 1 /\
  exists out,
    call scenario_layer scenario_batch = Ok out /\ shape out = [2; 1] /\
    wf out /\
    compute_output_shape scenario_layer (keras_shape (shape scenario_batch))
      = Ok (Some 2%Z, 1%Z).
Proof.
  split; [exact scenario_built|]. split; [reflexivity|]. split; [lia|].
  split; [lia|].
  apply (@call_output_shape R _ scenario_layer scenario_batch
           scenario_weights 2 3 1 1);
    [exact scenario_built | reflexivity | lia | lia].
Defined.

Lemma init_accepts_nonpositive_witness :
  (0 <= 0 \/ -3 <= 0)%Z /\
  exists l : layer R,
    __init__ 0 (-3) None = Ok l /\
    nb_kernels l = 0%Z /\ kernel_dim l = (-3)%Z /\ W l = None.
Proof.
  split; [left; lia|].
  apply (@init_accepts_nonpositive 0%Z (-3)%Z None). left. lia.
Defined.

Lemma distances_symmetric_witness :
  built scenario_layer scenario_weights 1 3 1 /\
  shape scenario_batch = [2; 3] /\ 1 <= 1 /\ 1 <= 1 /\
  exists ad,
    distances scenario_layer scenario_batch = Ok ad /\
    shape ad = [2; 1; 2] /\
    forall n m k, n < 2 -> m < 2 -> k < 1 ->
      get ad [n; k; m] = get ad [m; k; n].
Proof.
  split; [exact scenario_built|]. split; [reflexivity|]. split; [lia|].
  split; [lia|].
  apply (@distances_symmetric scenario_layer scenario_batch
           scenario_weights 2 3 1 1);
    [exact scenario_built | reflexivity | lia | lia].
Defined.

Lemma near_le_far (n m k : nat) :
  n < 2 -> m < 2 -> k < 1 -> n <> m ->
  (get near_distances [n; k; m] <= get far_distances [n; k; m])%R.
Proof.
  intros Hn Hm Hk Hnm.
  destruct n as [|[|n]], m as [|[|m]], k as [|k]; try lia;
    unfold get; simpl; lra.
Defined.

Lemma near_far_diagonal (n k : nat) :
  n < 2 -> k < 1 ->
  get near_distances [n; k; n] = 0%R /\ get far_distances [n; k; n] = 0%R.
Proof.
  intros Hn Hk.
  destruct n as [|[|n]], k as [|k]; try lia; split; reflexivity.
Defined.

Lemma aggregation_antitone_witness :
  shape near_distances = [2; 1; 2] /\ wf near_distances /\
  shape far_distances = [2; 1; 2] /\ wf far_distances /\
  (forall n m k, n < 2 -> m < 2 -> k < 1 -> n <> m ->
     (get near_distances [n; k; m] <= get far_distances [n; k; m])%R) /\
  (forall n k, n < 2 -> k < 1 ->
     get near_distances [n; k; n] = 0%R /\
     get far_distances [n; k; n] = 0%R) /\
  exists out out',
    minibatch_features near_distances = Ok out /\
    minibatch_features far_distances = Ok out' /\
    forall n k, n < 2 -> k < 1 -> (get out' [n; k] <= get out [n; k])%R.
Proof.
  split; [reflexivity|]. split; [reflexivity|]. split; [reflexivity|].
  split; [reflexivity|]. split; [exact near_le_far|].
  split; [exact near_far_diagonal|].
  apply (@aggregation_antitone near_distances far_distances 2 1);
    [reflexivity | reflexivity | reflexivity | reflexivity
    | exact near_le_far | exact near_far_diagonal].
Defined.

Lemma split_data_spec_witness :
  shape wide_dataset = [2; 5] /\ wf wide_dataset /\ 1 <= 2 /\ 5 / 2 < 3 /\
  exists r,
    split_data 3 wide_dataset 2 = Some (Ok r) /\
    (r = None <-> 5 < 2) /\
    (2 <= 5 ->
     exists out,
       r = Some out /\ shape out = [2 * (5 / 2); 2] /\ wf out /\
       forall q i j, q < 5 / 2 -> i < 2 -> j < 2 ->
         get out [q * 2 + i; j] = get wide_dataset [i; q * 2 + j]).
Proof.
  split; [reflexivity|]. split; [reflexivity|]. split; [lia|].
  split; [simpl; lia|].
  apply (@split_data_spec R _ wide_dataset 2 5 2 3);
    [reflexivity | reflexivity | lia | simpl; lia].
Defined.

Lemma doubling_built : built doubling_layer doubling_weights 1 3 1.
Proof. repeat split. Defined.

Lemma single_sample_output_finite_witness :
  built doubling_layer doubling_weights 1 3 1 /\
  shape finite_batch = [1; 3] /\ 1 <= 1 /\ 1 <= 1 /\
  forall exp_finite,
    (forall k c, k < 1 -> c < 1 ->
       F32.is_finite
         (F32.activation exp_finite finite_batch doubling_weights 0 k c)
       = true) /\
    exists out,
      F32.call exp_finite doubling_layer finite_batch = Ok out /\
      shape out = [1; 1] /\
      forall k, k < 1 -> F32.get exp_finite out [0; k] = F32.one.
Proof.
  split; [exact doubling_built|]. split; [reflexivity|]. split; [lia|].
  split; [lia|]. intros exp_finite.
  assert (Hfin : forall k c, k < 1 -> c < 1 ->
            F32.is_finite
              (F32.activation exp_finite finite_batch doubling_weights 0 k c)
            = true).
  { intros k c Hk Hc. destruct k as [|k], c as [|c]; try lia. reflexivity. }
  split; [exact Hfin|].
  apply (@single_sample_output_finite exp_finite doubling_layer finite_batch
           doubling_weights 3 1 1);
    [exact doubling_built | reflexivity | lia | lia | exact Hfin].
Defined.


Lemma clip_weights_float_spec_witness :
  SFleb F32.zero tenth = true /\
  Forall2 (F32.layer_clipped (F32.of_float tenth))
          (F32.layers float_model)
          (F32.layers (F32.clip_weights float_model tenth)).
Proof.
  split; [reflexivity|].
  apply (@clip_weights_float_spec float_model tenth). reflexivity.
Defined.
End Instances.

(** ** Further evaluations of the model *)

Section Evaluations.
Import MinibatchDiscrimination.

(** The successive slices of two columns are stacked; the fifth column,
    narrower than a slice, is dropped. *)
Example split_data_wide :
  split_data 3 wide_dataset 2
    = Some (Ok (Some (mkTensor [4; 2] [1; 2; 6; 7; 3; 4; 8; 9]%R))).
Proof. reflexivity. Qed.

Example split_data_too_narrow :
  split_data 1 wide_dataset 6 = Some (Ok None).
Proof. reflexivity. Qed.

(** With [timesteps = 0] the recursion never reaches a return. *)
Example split_data_zero_timesteps (fuel : nat) :
  split_data fuel wide_dataset 0 = None.
Proof.
  assert (Hgen : forall (d : tensor R) (N D : nat),
             shape d = [N; S D] -> split_data fuel d 0 = None).
  { induction fuel as [|fuel IH]; intros d N D Hd; [reflexivity|].
    cbn [split_data]. rewrite Hd.
    cbn [Nat.ltb Nat.leb Nat.eqb]. unfold np.hsplit. rewrite Hd.
    rewrite (IH _ N D); [reflexivity|].
    unfold np.slice_axis. rewrite Hd. reflexivity. }
  apply (Hgen wide_dataset 2 4). reflexivity.
Qed.

(** A layer built with zero kernels cannot run: the reshape to
    (-1, 0, kernel_dim) has no extent to infer. *)
Example call_zero_kernels :
  call (mkLayer 0 1 None (Some (mkTensor [0; 3; 1] []))) scenario_batch
    = Raise ValueError.
Proof. reflexivity. Qed.

(** A feature dimension that disagrees with the weights is rejected by
    [K.dot]. *)
Example call_shape_mismatch :
  call scenario_layer (mkTensor [2; 2] [1; 0; 3; 0]%R) = Raise ValueError.
Proof. reflexivity. Qed.
End Evaluations.

(** * Further properties of the module *)

(** ** [clip_weights] and [set_model_trainable] *)

Section ModelFacts.
Local Open Scope R_scope.

Lemma clip_entry_nested (c1 c2 v : R) :
  c1 <= c2 ->
  Rmin c1 (Rmax (Rmin c2 (Rmax v (- c2))) (- c1)) = Rmin c1 (Rmax v (- c1)).
Proof.
  intros Hc. unfold Rmin, Rmax.
  repeat (destruct (Rle_dec _ _)); lra.
Qed.

Lemma clip_entry_nested_rev (c1 c2 v : R) :
  0 <= c1 <= c2 ->
  Rmin c2 (Rmax (Rmin c1 (Rmax v (- c1))) (- c2)) = Rmin c1 (Rmax v (- c1)).
Proof.
  intros Hc. unfold Rmin, Rmax.
  repeat (destruct (Rle_dec _ _)); lra.
Qed.

(** X1. Clipping to a bound and then to a tighter one is clipping to the
    tighter one; in particular [clip_weights] is idempotent, for every
    [clip_value], negative ones included. *)
Theorem clip_weights_tighter (model : Model) (c1 c2 : R) :
  c1 <= c2 ->
  clip_weights (clip_weights model c2) c1 = clip_weights model c1.
Proof.
  intros Hc. unfold clip_weights, set_weights, get_weights, np.clip. simpl.
  f_equal. rewrite map_map. apply map_ext. intros l. simpl.
  f_equal. rewrite map_map. apply map_ext. intros w. simpl.
  f_equal. rewrite map_map. apply map_ext. intros v.
  apply clip_entry_nested. assumption.
Qed.

(** X2. For bounds [0 <= c1 <= c2], clipping to the tighter bound first and
    to the looser one afterwards changes nothing more. *)
Theorem clip_weights_looser (model : Model) (c1 c2 : R) :
  0 <= c1 <= c2 ->
  clip_weights (clip_weights model c1) c2 = clip_weights model c1.
Proof.
  intros Hc. unfold clip_weights, set_weights, get_weights, np.clip. simpl.
  f_equal. rewrite map_map. apply map_ext. intros l. simpl.
  f_equal. rewrite map_map. apply map_ext. intros w. simpl.
  f_equal. rewrite map_map. apply map_ext. intros v.
  apply clip_entry_nested_rev. assumption.
Qed.

(** X4. [clip_weights] keeps the trainable flags and commutes with
    [set_model_trainable]. *)
Theorem clip_weights_set_model_trainable (model : Model) (c : R) (b : bool) :
  clip_weights (set_model_trainable model b) c
    = set_model_trainable (clip_weights model c) b /\
  model_trainable (clip_weights model c) = model_trainable model /\
  map trainable (layers (clip_weights model c))
    = map trainable (layers model).
Proof.
  unfold clip_weights, set_model_trainable, set_weights, get_weights. simpl.
  rewrite !map_map. simpl. repeat split.
Qed.
End ModelFacts.

(** ** [split_data], further *)

Section SplitDataMore.
Context {A : Type} `{Scalar A}.

(** X5. With [timesteps = 0] and a dataset that has at least one column
    the recursion makes no progress: no recursion budget is enough for
    [split_data] to return. *)
Theorem split_data_zero_timesteps_diverges (fuel : nat) :
  forall (dataset : tensor A) (N D : nat),
    shape dataset = [N; S D] -> split_data fuel dataset 0 = None.
Proof.
  induction fuel as [|fuel IH]; intros dataset N D Hd; [reflexivity|].
  cbn [split_data]. rewrite Hd.
  cbn [Nat.ltb Nat.leb Nat.eqb]. unfold np.hsplit. rewrite Hd.
  rewrite (IH _ N D); [reflexivity|].
  unfold np.slice_axis. rewrite Hd. reflexivity.
Qed.

(** X6. Splitting is idempotent: the array [split_data] returns has
    exactly [timesteps] columns, and splitting it again returns it
    unchanged. *)
Theorem split_data_idempotent (dataset : tensor A) (N D t fuel : nat) :
  shape dataset = [N; D] -> wf dataset -> 1 <= t -> t <= D ->
  D / t < fuel ->
  exists out,
    split_data fuel dataset t = Some (Ok (Some out)) /\
    forall fuel', split_data (S fuel') out t = Some (Ok (Some out)).
Proof.
  intros Hs Hw Ht HD Hfuel.
  pose proof (has_self Hw) as Hh. rewrite Hs in Hh.
  destruct (split_data_has Ht Hh HD Hfuel) as (out & Hout & Hso & _).
  exists out. split; [assumption|].
  intros fuel'. cbn [split_data]. rewrite Hso.
  rewrite Nat.ltb_irrefl, Nat.eqb_refl. reflexivity.
Qed.

(** X7. The entries of the result and the [N * (D mod timesteps)] entries
    of the discarded last columns add up to the entries of the dataset:
    nothing is lost exactly when [timesteps] divides the column count. *)
Theorem split_data_entry_count (dataset : tensor A) (N D t fuel : nat) :
  shape dataset = [N; D] -> wf dataset -> 1 <= t -> t <= D ->
  D / t < fuel ->
  exists out,
    split_data fuel dataset t = Some (Ok (Some out)) /\
    length (data out) + N * (D mod t) = length (data dataset).
Proof.
  intros Hs Hw Ht HD Hfuel.
  pose proof (has_self Hw) as Hh. rewrite Hs in Hh.
  destruct (split_data_has Ht Hh HD Hfuel) as (out & Hout & Hso & Hwo & _).
  exists out. split; [assumption|].
  unfold wf in *. rewrite Hwo, Hw, Hso, Hs. simpl.
  pose proof (Nat.div_mod_eq D t). nia.
Qed.
End SplitDataMore.

(** ** The layer, further *)

Section LayerErrors.
Context {A : Type} `{Scalar A}.
Import MinibatchDiscrimination.

(** X13. A batch whose feature dimension differs from the second axis of
    the weights is rejected: [call] raises the backend's error of [K.dot]
    and returns no array. *)
Theorem call_feature_mismatch (self : layer A) (x w : tensor A)
    (N D D' K C : nat) :
  built self w K D C -> shape x = [N; D'] -> D' <> D ->
  call self x = Raise ValueError.
Proof.
  intros (HW & Hw & _) Hx Hne.
  unfold call, activation, K.dot. rewrite HW, Hx, Hw. simpl.
  replace (D' =? D) with false by (symmetry; apply Nat.eqb_neq; assumption).
  reflexivity.
Qed.

(** X14. The life cycle of the layer composes: constructed with positive
    [nb_kernels] = K and [kernel_dim] = C, then built for inputs of
    dimension D, the layer holds the kernel that [add_weight] made for the
    shape (K, D, C), and [call] on a batch of shape (N, D) returns the
    reference output for that kernel. *)
Theorem init_build_call (add_weight : list (option Z) -> result (tensor A))
    (x w : tensor A) (idim d0 : option Z) (N D K C : nat) :
  (1 <= K)%nat -> (1 <= C)%nat ->
  add_weight [Some (Z.of_nat K); Some (Z.of_nat D); Some (Z.of_nat C)]
    = Ok w ->
  shape w = [K; D; C] -> shape x = [N; D] ->
  (l0 <- __init__ (Z.of_nat K) (Z.of_nat C) idim ;;
   l <- build_layer add_weight l0 [d0; Some (Z.of_nat D)] ;;
   call l x) = Ok (reference x w).
Proof.
  intros HK HC Hadd Hw Hx. unfold __init__, build_layer. cbn [bind].
  cbn [nb_kernels kernel_dim input_dim]. rewrite Hadd. cbn [bind].
  match goal with |- call ?l x = _ => set (self := l) end.
  assert (Hb : built self w K D C) by (repeat split; assumption).
  destruct (call_has x Hb Hx HK HC) as (out & Hout & Hh).
  rewrite Hout. f_equal. apply (has_unique Hh).
  unfold reference. rewrite Hx, Hw. simpl. apply has_build.
Qed.
End LayerErrors.

(** ** [wasserstein_loss] *)

Lemma bshape_rev_diag (r : list nat) : bshape_rev r r = Ok r.
Proof.
  induction r as [|d r IH]; simpl; [reflexivity|].
  rewrite bdim_diag. cbn [bind]. rewrite IH. reflexivity.
Qed.

Lemma broadcast_shape_diag (s : list nat) : broadcast_shape s s = Ok s.
Proof.
  unfold broadcast_shape. rewrite bshape_rev_diag. cbn [bind].
  rewrite rev_involutive. reflexivity.
Qed.

Lemma bindex_in_range (s idx : list nat) :
  in_range idx s -> bindex s idx = idx.
Proof.
  intros Hr. unfold bindex.
  rewrite (in_range_length Hr), Nat.sub_diag. simpl.
  unfold in_range in Hr. induction Hr as [|i d idx s Hi Hr IH]; simpl.
  - reflexivity.
  - rewrite bcoord by assumption. rewrite IH. reflexivity.
Qed.

Section LossFacts.
Local Open Scope R_scope.

Lemma build_ext (s : list nat) (f g : list nat -> R) :
  (forall idx, in_range idx s -> f idx = g idx) -> build s f = build s g.
Proof.
  intros Hfg. unfold build. f_equal. apply map_ext_in.
  intros i Hi. apply in_seq in Hi. apply Hfg.
  apply unravel_in_range. lia.
Qed.

(** The entrywise product of two arrays of one shape. *)
Lemma product_same_shape (a b : tensor R) (s : list nat) :
  shape a = s -> shape b = s ->
  K.broadcast2 mul a b = Ok (build s (fun idx => get a idx * get b idx)).
Proof.
  intros Ha Hb. unfold K.broadcast2. rewrite Ha, Hb, broadcast_shape_diag.
  cbn [bind]. f_equal. apply build_ext.
  intros idx Hr. rewrite bindex_in_range by assumption. reflexivity.
Qed.

Lemma sum_upto_opp (n : nat) (f : nat -> R) :
  sum_upto n (fun j => - f j) = - sum_upto n f.
Proof.
  induction n as [|n IH].
  - unfold sum_upto, sum_list. simpl. lra.
  - rewrite !sum_upto_S, IH. simpl. lra.
Qed.

Lemma sum_upto_nth (l : list R) :
  sum_upto (length l) (fun i => nth i l 0) = sum_list l.
Proof.
  unfold sum_upto. f_equal.
  apply nth_ext with (d := 0) (d' := 0).
  - rewrite length_map, length_seq. reflexivity.
  - intros i Hi. rewrite length_map, length_seq in Hi.
    exact (nth_map_seq (fun i => nth i l 0) Hi).
Qed.

Lemma get_unravel (a : tensor R) (i : nat) :
  (i < size (shape a))%nat -> get a (unravel (shape a) i) = nth i (data a) 0.
Proof.
  intros Hi. unfold get. rewrite ravel_unravel by assumption. reflexivity.
Qed.

(** X15. Flipping the sign of the labels flips the sign of the loss. *)
Theorem wasserstein_loss_flip (y_true y_pred : tensor R) :
  shape y_true = shape y_pred -> wf y_true ->
  exists l,
    wasserstein_loss y_true y_pred = Ok (mkTensor [] [l]) /\
    wasserstein_loss (K.tneg y_true) y_pred = Ok (mkTensor [] [- l]).
Proof.
  intros Hs Hw. unfold wasserstein_loss.
  rewrite (product_same_shape (s := shape y_pred) y_true y_pred Hs eq_refl).
  rewrite (product_same_shape (s := shape y_pred) (K.tneg y_true) y_pred Hs
             eq_refl).
  cbn [bind]. eexists. split; [reflexivity|].
  unfold K_mean. f_equal. f_equal. f_equal.
  cbn [build data]. rewrite !length_map, !length_seq.
  fold (sum_upto (size (shape y_pred))
          (fun i => get (K.tneg y_true) (unravel (shape y_pred) i)
                    * get y_pred (unravel (shape y_pred) i))).
  fold (sum_upto (size (shape y_pred))
          (fun i => get y_true (unravel (shape y_pred) i)
                    * get y_pred (unravel (shape y_pred) i))).
  rewrite <- Rdiv_opp_l. f_equal. rewrite <- sum_upto_opp.
  apply sum_upto_ext. intros i Hi.
  pose proof (has_tmap neg (has_self Hw)) as (_ & _ & Hg).
  unfold K.tneg. rewrite Hg.
  - simpl. lra.
  - rewrite Hs. apply unravel_in_range. assumption.
Qed.

(** X16. When every label is 1 the loss is the mean of the predictions. *)
Theorem wasserstein_loss_ones (y_true y_pred : tensor R) :
  shape y_true = shape y_pred -> wf y_true -> wf y_pred ->
  (forall v, In v (data y_true) -> v = 1) ->
  wasserstein_loss y_true y_pred = Ok (K_mean y_pred).
Proof.
  intros Hs Hw Hwp Hones. unfold wasserstein_loss.
  rewrite (product_same_shape (s := shape y_pred) y_true y_pred Hs eq_refl).
  cbn [bind]. unfold K_mean. f_equal. f_equal. f_equal.
  cbn [build data]. rewrite length_map, length_seq.
  unfold wf in Hw, Hwp. rewrite Hwp. f_equal.
  rewrite <- (sum_upto_nth (data y_pred)), Hwp.
  apply (@sum_upto_ext R _ (size (shape y_pred))
           (fun i => get y_true (unravel (shape y_pred) i)
                     * get y_pred (unravel (shape y_pred) i))).
  intros i Hi. rewrite (get_unravel y_pred) by assumption.
  rewrite <- Hs in *. rewrite (get_unravel y_true) by assumption.
  rewrite (Hones (nth i (data y_true) 0)); [lra|].
  apply nth_In. lia.
Qed.
End LossFacts.

(** ** Plotting *)

Section IoFacts.

Lemma io_bind_assoc {X Y Z : Type} (c : io X) (k : X -> io Y)
    (h : Y -> io Z) :
  io_bind (io_bind c k) h = io_bind c (fun x => io_bind (k x) h).
Proof.
  destruct c as [t [x|e]]; simpl; [|reflexivity].
  destruct (k x) as [t' [y|e]]; simpl.
  - rewrite app_assoc. reflexivity.
  - reflexivity.
Qed.

Lemma io_bind_ret {X Y : Type} (x : X) (k : X -> io Y) :
  io_bind (ret x) k = k x.
Proof. unfold ret. simpl. destruct (k x). reflexivity. Qed.

Lemma io_bind_ext {X Y : Type} (c : io X) (k k' : X -> io Y) :
  (forall x, k x = k' x) -> io_bind c k = io_bind c k'.
Proof.
  intros Hk. destruct c as [t [x|e]]; simpl; [|reflexivity].
  rewrite Hk. reflexivity.
Qed.

Lemma io_bind_unit (c : io unit) : c >>> ret tt = c.
Proof.
  destruct c as [t [[]|e]]; simpl; [|reflexivity].
  rewrite app_nil_r. reflexivity.
Qed.

Lemma for_each_ext {X : Type} (l : list X) (f g : X -> io unit) :
  (forall x, In x l -> f x = g x) -> for_each l f = for_each l g.
Proof.
  induction l as [|x l IH]; intros Hfg; simpl; [reflexivity|].
  rewrite (Hfg x) by (left; reflexivity).
  rewrite IH by (intros; apply Hfg; right; assumption). reflexivity.
Qed.

Lemma for_each_app {X : Type} (l1 l2 : list X) (f : X -> io unit) :
  for_each (l1 ++ l2) f = for_each l1 f >>> for_each l2 f.
Proof.
  induction l1 as [|x l1 IH]; cbn [app for_each].
  - rewrite io_bind_ret. reflexivity.
  - rewrite IH, io_bind_assoc. reflexivity.
Qed.

Lemma for_each_map {X Y : Type} (g : X -> Y) (l : list X)
    (f : Y -> io unit) :
  for_each (map g l) f = for_each l (fun x => f (g x)).
Proof.
  induction l as [|x l IH]; simpl; [reflexivity|].
  rewrite IH. reflexivity.
Qed.

(** A loop that passes a counter on and increments it once per element
    is a loop over the successive values of the counter. *)
Lemma for_each_counter {X : Type} (l : list X) (F : nat -> io unit) :
  forall k,
    for_each_with l k (fun _ k => F k >>> ret (k + 1))
    = for_each (seq k (length l)) F >>> ret (k + length l).
Proof.
  induction l as [|x l IH]; intros k;
    cbn [for_each_with for_each length seq].
  - rewrite io_bind_ret, Nat.add_0_r. reflexivity.
  - rewrite !io_bind_assoc. apply io_bind_ext. intros _.
    rewrite io_bind_ret, IH.
    replace (k + 1) with (S k) by lia.
    replace (S k + length l) with (k + S (length l)) by lia.
    reflexivity.
Qed.

Lemma for_each_blocks {X : Type} (l : list X) (c : nat)
    (F : nat -> io unit) :
  forall k,
    for_each_with l k (fun _ k => for_each (seq k c) F >>> ret (k + c))
    = for_each (seq k (length l * c)) F >>> ret (k + length l * c).
Proof.
  induction l as [|x l IH]; intros k;
    cbn [for_each_with for_each length seq Nat.mul].
  - rewrite io_bind_ret, Nat.add_0_r. reflexivity.
  - rewrite !io_bind_assoc.
    rewrite seq_app, for_each_app, io_bind_assoc.
    apply io_bind_ext. intros _.
    rewrite io_bind_ret, IH.
    replace (k + c + length l * c) with (k + (c + length l * c)) by lia.
    reflexivity.
Qed.

Lemma for_each_with_ext {X S : Type} (l : list X) (f g : X -> S -> io S) :
  (forall x s, f x s = g x s) ->
  forall s, for_each_with l s f = for_each_with l s g.
Proof.
  intros Hfg. induction l as [|x l IH]; intros s; simpl; [reflexivity|].
  rewrite Hfg. apply io_bind_ext. intros s'. apply IH.
Qed.

Lemma for_each_grid (r c : nat) (H : nat -> io unit) :
  forall i0,
    for_each (seq i0 r) (fun i => for_each (seq 0 c) (fun j => H (i * c + j)))
    = for_each (seq (i0 * c) (r * c)) H.
Proof.
  induction r as [|r IH]; intros i0; simpl; [reflexivity|].
  rewrite seq_app, for_each_app, IH.
  f_equal.
  - rewrite <- (for_each_map (fun j => i0 * c + j) (seq 0 c) H).
    f_equal. clear.
    assert (Hgen : forall n a b, map (fun j => b + j) (seq a n) = seq (b + a) n).
    { induction n as [|n IHn]; intros a b; simpl; [reflexivity|].
      rewrite IHn. f_equal. f_equal. lia. }
    rewrite Hgen, Nat.add_0_r. reflexivity.
  - replace (i0 * c + c) with (S i0 * c) by lia. reflexivity.
Qed.
End IoFacts.

Section PlotFacts.

(** The counter of [save_samples] visits the samples in order: the nested
    loops are one pass over the cells 0 .. rows * columns - 1, cell [p]
    showing sample [p] in subplot [p + 1]. *)
Lemma save_samples_flat (generated_data : tensor R) (rows columns : nat)
    (filenames : list String.string) (is_image : bool) :
  save_samples generated_data rows columns filenames is_image
  = emit (plt.subplots rows columns
            (if is_image then (7, 7) else (columns * 3, rows))) >>>
    for_each (seq 0 (rows * columns)) (fun p =>
      show_sample generated_data is_image rows columns (p + 1) p) >>>
    finish_figure filenames.
Proof.
  unfold save_samples. apply io_bind_ext. intros _.
  rewrite (for_each_with_ext (seq 0 rows)
             (fun _ k =>
                for_each_with (seq 0 columns) k (fun _ k =>
                  show_sample generated_data is_image rows columns k (k - 1)
                  >>> ret (k + 1)))
             (fun _ k =>
                for_each (seq k columns) (fun k =>
                  show_sample generated_data is_image rows columns k (k - 1))
                >>> ret (k + columns))).
  2: { intros _ k. rewrite for_each_counter, length_seq. reflexivity. }
  rewrite for_each_blocks, length_seq, io_bind_assoc.
  rewrite <- (seq_shift (rows * columns) 0), for_each_map.
  rewrite (for_each_ext (seq 0 (rows * columns))
             (fun p => show_sample generated_data is_image rows columns
                         (S p) (S p - 1))
             (fun p => show_sample generated_data is_image rows columns
                         (p + 1) p)).
  2: { intros p _. rewrite Nat.add_1_r. simpl. rewrite Nat.sub_0_r.
       reflexivity. }
  apply io_bind_ext. intros _. rewrite io_bind_ret.
  reflexivity.
Qed.
End PlotFacts.

Section PlotRuns.

Lemma save_latent_space_flat (generated_data : tensor R) (grid_size : nat)
    (filenames : list String.string) (is_image : bool) :
  save_latent_space generated_data grid_size filenames is_image
  = emit (plt.subplots grid_size grid_size
            (if is_image then (grid_size, grid_size)
             else (grid_size * 3, grid_size))) >>>
    for_each (seq 0 (grid_size * grid_size)) (fun p =>
      show_sample generated_data is_image grid_size grid_size (p + 1) p) >>>
    finish_figure filenames.
Proof.
  unfold save_latent_space.
  pose proof (for_each_grid grid_size grid_size
                (fun p => show_sample generated_data is_image grid_size
                            grid_size (p + 1) p) 0) as E.
  cbv beta in E. rewrite E. reflexivity.
Qed.

(** X17. On a square grid [save_latent_space] makes the calls of
    [save_samples] with [rows = columns = grid_size]: the two runs end in
    the same way and differ at most in the figure size of the first call,
    and they are the same run for curves ([is_image] false) and for a grid
    of size 7. *)
Theorem save_latent_space_as_samples (generated_data : tensor R)
    (grid_size : nat) (filenames : list String.string) (is_image : bool) :
  let latent := save_latent_space generated_data grid_size filenames
                  is_image in
  let samples := save_samples generated_data grid_size grid_size filenames
                   is_image in
  snd latent = snd samples /\
  tl (fst latent) = tl (fst samples) /\
  (is_image = false \/ grid_size = 7 -> latent = samples).
Proof.
  cbv zeta. rewrite save_latent_space_flat, save_samples_flat.
  split; [reflexivity|]. split; [reflexivity|].
  intros [-> | ->]; reflexivity.
Qed.

Lemma np_T_ok (s : tensor R) : exists c, np_T s = Ok c.
Proof.
  unfold np_T, K.permute_dimensions.
  rewrite length_rev, length_seq, Nat.eqb_refl. cbn [andb].
  replace (forallb _ _) with true; [eexists; reflexivity|].
  symmetry. apply forallb_forall. intros j Hj.
  apply existsb_exists. exists j. split; [|apply Nat.eqb_refl].
  apply -> in_rev. assumption.
Qed.

Lemma show_curve_present (d : tensor R) (N : nat) (s : list nat)
    (rows cols k p : nat) :
  shape d = N :: s -> p < N ->
  exists c,
    sample_curve d p = Ok c /\
    show_sample d false rows cols k p
    = ([plt.subplot rows cols k; plt.plot c; plt.ylim (-1) 1;
        plt.xticks []; plt.yticks []], Ok tt).
Proof.
  intros Hd Hp. unfold sample_curve, show_sample, np_getitem. rewrite Hd.
  replace (p <? N) with true by (symmetry; apply Nat.ltb_lt; assumption).
  cbn [bind].
  destruct (np_T_ok (mkTensor s (firstn (size s) (skipn (p * size s) (data d)))))
    as (c & Hc).
  rewrite Hc. exists c. split; reflexivity.
Qed.

Lemma show_curve_absent (d : tensor R) (N : nat) (s : list nat)
    (rows cols k p : nat) :
  shape d = N :: s -> N <= p ->
  show_sample d false rows cols k p
  = ([plt.subplot rows cols k], Raise IndexError).
Proof.
  intros Hd Hp. unfold show_sample, np_getitem. rewrite Hd.
  replace (p <? N) with false by (symmetry; apply Nat.ltb_ge; assumption).
  reflexivity.
Qed.

Lemma cells_present (d : tensor R) (N : nat) (s : list nat)
    (rows cols : nat) :
  shape d = N :: s ->
  forall n a, a + n <= N ->
    exists t,
      for_each (seq a n) (fun p => show_sample d false rows cols (p + 1) p)
      = (t, Ok tt) /\
      saved_files t = [] /\
      subplot_indices t = seq (a + 1) n /\
      Forall2 (fun p c => sample_curve d p = Ok c) (seq a n) (drawn t).
Proof.
  intros Hd. induction n as [|n IH]; intros a Ha; cbn [seq for_each].
  - exists []. repeat split. constructor.
  - destruct (@show_curve_present d N s rows cols (a + 1) a Hd) as (c & Hc & Hs);
      [lia|].
    destruct (IH (S a)) as (t & Ht & Hsaved & Hsub & Hdrawn); [lia|].
    rewrite Hs, Ht. eexists. split; [reflexivity|].
    cbn [app fst snd saved_files subplot_indices drawn flat_map].
    fold (saved_files t). fold (subplot_indices t). fold (drawn t).
    rewrite Hsaved, Hsub. split; [reflexivity|]. split.
    + replace (S a + 1) with (S (a + 1)) by lia. reflexivity.
    + constructor; assumption.
Qed.

Lemma cells_absent (d : tensor R) (N : nat) (s : list nat)
    (rows cols : nat) :
  shape d = N :: s ->
  forall n a, a <= N -> N < a + n ->
    exists t,
      for_each (seq a n) (fun p => show_sample d false rows cols (p + 1) p)
      = (t, Raise IndexError) /\
      saved_files t = [] /\
      subplot_indices t = seq (a + 1) (N - a + 1) /\
      Forall2 (fun p c => sample_curve d p = Ok c) (seq a (N - a)) (drawn t).
Proof.
  intros Hd. induction n as [|n IH]; intros a Ha HN; [lia|].
  cbn [seq for_each].
  destruct (Nat.eq_dec a N) as [->|Hne].
  - rewrite (@show_curve_absent d N s rows cols (N + 1) N Hd) by lia.
    eexists. split; [reflexivity|].
    rewrite Nat.sub_diag. repeat split. constructor.
  - destruct (@show_curve_present d N s rows cols (a + 1) a Hd) as (c & Hc & Hs);
      [lia|].
    destruct (IH (S a)) as (t & Ht & Hsaved & Hsub & Hdrawn); [lia|lia|].
    rewrite Hs, Ht. eexists. split; [reflexivity|].
    cbn [app fst snd saved_files subplot_indices drawn flat_map].
    fold (saved_files t). fold (subplot_indices t). fold (drawn t).
    rewrite Hsaved, Hsub. split; [reflexivity|]. split.
    + replace (N - a + 1) with (S (N - S a + 1)) by lia.
      replace (S a + 1) with (S (a + 1)) by lia. reflexivity.
    + replace (N - a) with (S (N - S a)) by lia.
      constructor; assumption.
Qed.

Lemma finish_figure_run (filenames : list String.string) :
  finish_figure filenames
  = ([plt.tight_layout; plt.subplots_adjust 0 0]
     ++ map plt.savefig filenames ++ [plt.clf; plt.close], Ok tt).
Proof.
  unfold finish_figure.
  assert (Hsave : for_each filenames (fun f => emit (plt.savefig f))
                  = (map plt.savefig filenames, Ok tt)).
  { induction filenames as [|f fs IH]; [reflexivity|].
    cbn [for_each map]. rewrite IH. reflexivity. }
  rewrite Hsave. reflexivity.
Qed.

Lemma saved_files_finish (filenames : list String.string) :
  saved_files (map plt.savefig filenames ++ [plt.clf; plt.close]) = filenames.
Proof.
  induction filenames as [|f fs IH]; [reflexivity|].
  cbn [map app saved_files flat_map]. fold (saved_files
    (map plt.savefig fs ++ [plt.clf; plt.close])).
  rewrite IH. reflexivity.
Qed.

Lemma subplot_indices_finish (filenames : list String.string) :
  subplot_indices (map plt.savefig filenames ++ [plt.clf; plt.close]) = [].
Proof.
  induction filenames as [|f fs IH]; [reflexivity|].
  cbn [map app subplot_indices flat_map]. exact IH.
Qed.

Lemma drawn_finish (filenames : list String.string) :
  drawn (map plt.savefig filenames ++ [plt.clf; plt.close]) = [].
Proof.
  induction filenames as [|f fs IH]; [reflexivity|].
  cbn [map app drawn flat_map]. exact IH.
Qed.

(** X18. For a grid of at least one row and one column, samples that are
    curves (arrays of at most two axes, which [plt.plot] accepts), and at
    least [rows * columns] of them, [save_samples] for curves runs to its
    end: subplots 1 .. rows * columns are selected in order, the curve drawn
    in subplot p + 1 is sample p transposed, and the figure is saved once
    under each file name, in order. *)
Theorem save_samples_curves_run (generated_data : tensor R) (N : nat)
    (s : list nat) (rows columns : nat) (filenames : list String.string) :
  1 <= rows -> 1 <= columns -> length s <= 2 ->
  shape generated_data = N :: s -> rows * columns <= N ->
  let run := save_samples generated_data rows columns filenames false in
  snd run = Ok tt /\
  saved_files (fst run) = filenames /\
  subplot_indices (fst run) = seq 1 (rows * columns) /\
  Forall2 (fun p c => sample_curve generated_data p = Ok c)
          (seq 0 (rows * columns)) (drawn (fst run)).
Proof.
  intros _ _ _ Hd Hn. cbv zeta. rewrite save_samples_flat.
  destruct (@cells_present generated_data N s rows columns Hd (rows * columns) 0)
    as (t & Ht & Hsaved & Hsub & Hdrawn); [lia|].
  rewrite Ht, finish_figure_run.
  cbn [emit io_bind fst snd app].
  split; [reflexivity|].
  unfold saved_files, subplot_indices, drawn in *.
  cbn [flat_map app]. rewrite !flat_map_app, Hsaved, Hsub.
  cbn [flat_map app].
  fold (saved_files (map plt.savefig filenames ++ [plt.clf; plt.close])).
  fold (subplot_indices (map plt.savefig filenames ++ [plt.clf; plt.close])).
  fold (drawn (map plt.savefig filenames ++ [plt.clf; plt.close])).
  rewrite saved_files_finish, subplot_indices_finish, drawn_finish.
  rewrite !app_nil_r. repeat split. assumption.
Qed.

(** X19. For a grid of at least one row and one column and samples that
    are curves (arrays of at most two axes, which [plt.plot] accepts), with
    fewer than [rows * columns] samples [save_samples] for curves draws the
    N samples there are, raises [IndexError] at the next subplot, and saves
    no file. *)
Theorem save_samples_too_few (generated_data : tensor R) (N : nat)
    (s : list nat) (rows columns : nat) (filenames : list String.string) :
  1 <= rows -> 1 <= columns -> length s <= 2 ->
  shape generated_data = N :: s -> N < rows * columns ->
  let run := save_samples generated_data rows columns filenames false in
  snd run = Raise IndexError /\
  saved_files (fst run) = [] /\
  subplot_indices (fst run) = seq 1 (N + 1) /\
  Forall2 (fun p c => sample_curve generated_data p = Ok c)
          (seq 0 N) (drawn (fst run)).
Proof.
  intros _ _ _ Hd Hn. cbv zeta. rewrite save_samples_flat.
  destruct (@cells_absent generated_data N s rows columns Hd (rows * columns) 0)
    as (t & Ht & Hsaved & Hsub & Hdrawn); [lia|lia|].
  rewrite Ht. cbn [emit io_bind fst snd app].
  split; [reflexivity|].
  cbn [saved_files subplot_indices drawn flat_map app].
  fold (saved_files t). fold (subplot_indices t). fold (drawn t).
  rewrite Nat.sub_0_r in *. repeat split; assumption.
Qed.
End PlotRuns.

Section LossPlots.

Lemma last_1000_suffix (series : list R) :
  exists older,
    series = older ++ last_1000 series /\
    length (last_1000 series) = Nat.min 1000 (length series).
Proof.
  exists (firstn (length series - 1000) series). unfold last_1000. split.
  - symmetry. apply firstn_skipn.
  - rewrite length_skipn. lia.
Qed.

(** X20. Given at least two series, [save_losses] runs to its end and
    saves the figure once; the upper panel shows the first two series and
    the lower panel their last [min 1000 (length)] values. *)
Theorem save_losses_run (g c : list R) (rest : list (list R))
    (filename : String.string) :
  let run := save_losses (g :: c :: rest) filename in
  snd run = Ok tt /\
  saved_files (fst run) = [filename] /\
  subplot_indices (fst run) = [1; 2] /\
  drawn (fst run)
    = [curve g; curve c; curve (last_1000 g); curve (last_1000 c)] /\
  (exists older, g = older ++ last_1000 g) /\
  (exists older, c = older ++ last_1000 c) /\
  length (last_1000 g) = Nat.min 1000 (length g) /\
  length (last_1000 c) = Nat.min 1000 (length c).
Proof.
  cbv zeta.
  destruct (last_1000_suffix g) as (og & Hg & Hlg).
  destruct (last_1000_suffix c) as (oc & Hc & Hlc).
  split; [reflexivity|]. split; [reflexivity|]. split; [reflexivity|].
  split; [reflexivity|].
  split; [exists og; assumption|]. split; [exists oc; assumption|].
  split; assumption.
Qed.

(** X21. Given fewer than two series, [save_losses] raises [IndexError]
    and saves no file. *)
Theorem save_losses_too_few (losses : list (list R))
    (filename : String.string) :
  length losses < 2 ->
  let run := save_losses losses filename in
  snd run = Raise IndexError /\ saved_files (fst run) = [].
Proof.
  intros Hl. destruct losses as [|g [|c rest]]; simpl in Hl; try lia;
    split; reflexivity.
Qed.
End LossPlots.

(** ** [load_resized_mnist] *)

Section MnistFacts.
Local Open Scope R_scope.

Lemma broadcast_to_self (v : tensor R) :
  wf v -> build (shape v) (fun idx => get v (bindex (shape v) idx)) = v.
Proof.
  intros Hw. apply (@has_unique R _ _ _ (shape v) (get v)).
  - eapply has_ext; [apply has_build|].
    intros idx Hr. cbv beta. rewrite bindex_in_range by assumption.
    reflexivity.
  - apply has_self. assumption.
Qed.

Lemma np_setitem_row (x v : tensor R) (n i : nat) (s : list nat) :
  shape x = n :: s -> wf x -> (i < n)%nat -> shape v = s -> wf v ->
  exists x',
    np_setitem x i v = Ok x' /\ shape x' = n :: s /\ wf x' /\
    firstn ((i + 1) * size s) (data x')
    = firstn (i * size s) (data x) ++ data v.
Proof.
  intros Hx Hwx Hi Hv Hwv. unfold np_setitem. rewrite Hx.
  replace (i <? n)%nat with true by (symmetry; apply Nat.ltb_lt; assumption).
  rewrite Hv, broadcast_shape_diag.
  destruct (list_eq_dec Nat.eq_dec s s) as [_|Hne]; [|congruence].
  rewrite <- Hv, (broadcast_to_self Hwv), Hv.
  unfold wf in Hwx, Hwv. rewrite Hx in Hwx. rewrite Hv in Hwv.
  cbn [size fold_right] in Hwx. fold (size s) in Hwx.
  assert (Hlen : length (firstn (i * size s) (data x)) = (i * size s)%nat).
  { rewrite length_firstn. nia. }
  eexists. split; [reflexivity|]. split; [reflexivity|]. split.
  - unfold wf. cbn [shape data size fold_right]. fold (size s).
    rewrite !length_app, Hlen, length_skipn, Hwv. nia.
  - cbn [data]. rewrite app_assoc, firstn_app, length_app, Hlen, Hwv.
    replace ((i + 1) * size s - (i * size s + size s))%nat with 0%nat by lia.
    rewrite firstn_all2 by (rewrite length_app, Hlen, Hwv; lia).
    cbn [firstn]. apply app_nil_r.
Qed.

Lemma resize_rows (x_train : tensor R)
    (imresize : tensor R -> nat * nat -> result (tensor R))
    (side M rows : nat) (tail : list nat) (P : R -> Prop) :
  shape x_train = rows :: tail ->
  (forall img, exists r,
      imresize img (side, side) = Ok r /\ shape r = [side; side]%nat /\
      wf r /\ Forall P (data r)) ->
  forall k a (dataset : tensor R),
    (a + k <= rows)%nat -> (a + k <= M)%nat ->
    shape dataset = [M; side; side]%nat -> wf dataset ->
    Forall P (firstn (a * size [side; side]%nat) (data dataset)) ->
    exists dataset',
      for_rows (seq a k) dataset (fun row dataset =>
        img <- np_getitem x_train row ;;
        resized <- imresize img (side, side) ;;
        np_setitem dataset row resized) = Ok dataset' /\
      shape dataset' = [M; side; side]%nat /\ wf dataset' /\
      Forall P (firstn ((a + k) * size [side; side]%nat) (data dataset')).
Proof.
  intros Hx Hres. induction k as [|k IH]; intros a dataset Hk HM Hs Hw HP.
  - exists dataset. rewrite Nat.add_0_r. repeat split; assumption.
  - cbn [seq for_rows]. unfold np_getitem at 1. rewrite Hx.
    replace (a <? rows)%nat with true by (symmetry; apply Nat.ltb_lt; lia).
    cbn [bind].
    destruct (Hres (mkTensor tail
                      (firstn (size tail) (skipn (a * size tail) (data x_train)))))
      as (r & Hr & Hsr & Hwr & HPr).
    rewrite Hr. cbn [bind].
    destruct (@np_setitem_row dataset r M a [side; side]%nat Hs Hw)
      as (d' & Hd' & Hs' & Hw' & Hfirst); [lia | assumption | assumption |].
    rewrite Hd'. cbn [bind].
    destruct (IH (S a) d') as (d'' & Hd'' & Hs'' & Hw'' & HP'');
      [lia | lia | assumption | assumption | |].
    + replace (S a) with (a + 1)%nat by lia. rewrite Hfirst.
      apply Forall_app. split; assumption.
    + exists d''. split; [assumption|]. split; [assumption|].
      split; [assumption|].
      replace (a + S k)%nat with (S a + k)%nat by lia. assumption.
Qed.

Lemma reshape_rows (d : tensor R) (M side : nat) :
  shape d = [M; side; side]%nat -> wf d ->
  K.reshape d [Z.of_nat M; Z.of_nat (side * side)]
  = Ok (mkTensor [M; (side * side)%nat] (data d)).
Proof.
  intros Hs Hw. unfold K.reshape, K.resolve_shape.
  unfold wf in Hw. rewrite Hs in Hw. cbn [size fold_right] in Hw.
  assert (HM1 : (Z.of_nat M <? -1)%Z = false) by (apply Z.ltb_ge; lia).
  assert (HS1 : (Z.of_nat (side * side) <? -1)%Z = false)
    by (apply Z.ltb_ge; lia).
  assert (HM2 : (0 <=? Z.of_nat M)%Z = true) by (apply Z.leb_le; lia).
  assert (HS2 : (0 <=? Z.of_nat (side * side))%Z = true)
    by (apply Z.leb_le; lia).
  assert (HM3 : (Z.of_nat M =? -1)%Z = false) by (apply Z.eqb_neq; lia).
  assert (HS3 : (Z.of_nat (side * side) =? -1)%Z = false)
    by (apply Z.eqb_neq; lia).
  cbn [existsb filter fold_right length map].
  rewrite HM1, HS1, HM2, HS2, HM3, HS3.
  cbn [orb filter fold_right length map].
  replace (Z.of_nat M * (Z.of_nat (side * side) * 1) =?
           Z.of_nat (length (data d)))%Z with true.
  - cbn [bind]. rewrite !Nat2Z.id. reflexivity.
  - symmetry. apply Z.eqb_eq. rewrite Hw. lia.
Qed.

(** X22. When the training set has the 60000 images and the resizing
    function returns, for every image, a (size, size) array of grey levels
    in [0, 255], [load_resized_mnist] returns an array of shape
    (60000, size * size) all of whose entries lie in [-1, 1], whatever the
    array of [np.empty] held. *)
Theorem load_resized_mnist_range (x_train : tensor R)
    (imresize : tensor R -> nat * nat -> result (tensor R))
    (memory : nat -> R) (side : nat) (tail : list nat) :
  shape x_train = mnist_rows :: tail ->
  (forall img, exists r,
      imresize img (side, side) = Ok r /\ shape r = [side; side]%nat /\
      wf r /\ Forall (fun v => 0 <= v <= 255) (data r)) ->
  exists out,
    load_resized_mnist x_train imresize memory side = Ok out /\
    shape out = [mnist_rows; (side * side)%nat] /\ wf out /\
    Forall (fun v => -1 <= v <= 1) (data out).
Proof.
  intros Hx Hres. unfold load_resized_mnist. rewrite Hx.
  generalize dependent mnist_rows. intros M Hx.
  destruct (@resize_rows x_train imresize side M M tail
              (fun v => 0 <= v <= 255) Hx Hres M 0%nat
              (np_empty memory [M; side; side]%nat))
    as (d & Hd & Hs & Hw & HP);
    [lia | lia | reflexivity
    | unfold wf, np_empty; cbn [data shape];
      rewrite length_map, length_seq; reflexivity
    | constructor |].
  rewrite Hd. cbn [bind].
  set (d3 := tmap _ (tmap _ (tmap _ d))).
  assert (Hs3 : shape d3 = [M; side; side]%nat) by exact Hs.
  assert (Hw3 : wf d3).
  { unfold wf, d3, tmap. cbn [data shape]. rewrite !length_map. exact Hw. }
  rewrite (reshape_rows Hs3 Hw3).
  eexists. split; [reflexivity|]. split; [reflexivity|]. split.
  - unfold wf in *. cbn [shape data]. rewrite Hw3, Hs3.
    cbn [size fold_right]. lia.
  - cbn [data]. unfold d3, tmap. cbn [data].
    rewrite firstn_all2 in HP
      by (unfold wf in Hw; rewrite Hw, Hs; cbn [size fold_right Nat.add]; lia).
    rewrite !Forall_map. eapply Forall_impl; [|exact HP].
    intros v Hv. cbv beta. lra.
Qed.
End MnistFacts.

(** ** [get_config] *)

Section ConfigFacts.

Lemma dict_get_set_same (d : pydict) (k : String.string) (v : pyvalue) :
  dict_get (dict_set d k v) k = Some v.
Proof.
  induction d as [|[k' v'] d IH]; simpl.
  - rewrite String.eqb_refl. reflexivity.
  - destruct (String.eqb k' k) eqn:Hk; simpl; rewrite Hk;
      [reflexivity | assumption].
Qed.

Lemma dict_get_set_other (d : pydict) (k k0 : String.string) (v : pyvalue) :
  String.eqb k k0 = false ->
  dict_get (dict_set d k v) k0 = dict_get d k0.
Proof.
  intros Hne. induction d as [|[k' v'] d IH]; simpl.
  - rewrite Hne. reflexivity.
  - destruct (String.eqb k' k) eqn:Hk; simpl.
    + apply String.eqb_eq in Hk. subst k'. rewrite Hne. reflexivity.
    + destruct (String.eqb k' k0); [reflexivity | assumption].
Qed.

Lemma dict_get_fold (items : list (String.string * pyvalue))
    (k : String.string) :
  forall d,
    dict_get (fold_left (fun d kv => dict_set d (fst kv) (snd kv)) items d) k
    = match last_item items k with
      | Some v => Some v
      | None => dict_get d k
      end.
Proof.
  induction items as [|[k' v] rest IH]; intros d; simpl; [reflexivity|].
  rewrite IH. destruct (last_item rest k); [reflexivity|].
  destruct (String.eqb k' k) eqn:Hk.
  - apply String.eqb_eq in Hk. subst k'. apply dict_get_set_same.
  - apply dict_get_set_other. assumption.
Qed.

Lemma last_item_app (l1 l2 : list (String.string * pyvalue))
    (k : String.string) :
  last_item (l1 ++ l2) k
  = match last_item l2 k with
    | Some v => Some v
    | None => last_item l1 k
    end.
Proof.
  induction l1 as [|[k' v] l1 IH]; simpl.
  - destruct (last_item l2 k); reflexivity.
  - rewrite IH. destruct (last_item l2 k); reflexivity.
Qed.

Lemma own_config_items (v1 v2 v3 v4 v5 v6 : pyvalue) :
  fold_left (fun d kv => dict_set d (fst kv) (snd kv))
    [(key.nb_kernels, v1); (key.kernel_dim, v2); (key.W_regularizer, v3);
     (key.activity_regularizer, v4); (key.W_constraint, v5);
     (key.input_dim, v6)] []
  = [(key.nb_kernels, v1); (key.kernel_dim, v2); (key.W_regularizer, v3);
     (key.activity_regularizer, v4); (key.W_constraint, v5);
     (key.input_dim, v6)].
Proof. reflexivity. Qed.

(** X23. In the configuration that [get_config] returns, the layer's own
    six entries hold the layer's values whatever the configuration of the
    base class contains under those keys, and every other key (among them
    "init": the initializer is not saved) has the entry of the base
    class. *)
Theorem get_config_entries {A : Type} (self : MinibatchDiscrimination.layer A)
    (W_regularizer activity_regularizer W_constraint : option pydict)
    (base_config : pydict) :
  let config := get_config self W_regularizer activity_regularizer
                  W_constraint base_config in
  dict_get config key.nb_kernels
    = Some (PyInt (MinibatchDiscrimination.nb_kernels self)) /\
  dict_get config key.kernel_dim
    = Some (PyInt (MinibatchDiscrimination.kernel_dim self)) /\
  dict_get config key.W_regularizer = Some (config_or_none W_regularizer) /\
  dict_get config key.activity_regularizer
    = Some (config_or_none activity_regularizer) /\
  dict_get config key.W_constraint = Some (config_or_none W_constraint) /\
  dict_get config key.input_dim
    = Some (int_or_none (MinibatchDiscrimination.input_dim self)) /\
  dict_get config key.init = dict_get (dict_of_items base_config) key.init /\
  forall k, ~ In k own_keys ->
    dict_get config k = dict_get (dict_of_items base_config) k.
Proof.
  cbv zeta. unfold get_config, dict_of_items. rewrite own_config_items.
  assert (Hother : forall k, ~ In k own_keys ->
    dict_get
      (fold_left (fun d kv => dict_set d (fst kv) (snd kv))
         (base_config ++
          [(key.nb_kernels, PyInt (MinibatchDiscrimination.nb_kernels self));
           (key.kernel_dim, PyInt (MinibatchDiscrimination.kernel_dim self));
           (key.W_regularizer, config_or_none W_regularizer);
           (key.activity_regularizer, config_or_none activity_regularizer);
           (key.W_constraint, config_or_none W_constraint);
           (key.input_dim,
            int_or_none (MinibatchDiscrimination.input_dim self))])
         []) k
    = dict_get
        (fold_left (fun d kv => dict_set d (fst kv) (snd kv)) base_config [])
        k).
  { intros k Hk. rewrite !dict_get_fold, last_item_app.
    cbn [last_item].
    unfold own_keys in Hk. cbn [In] in Hk.
    repeat match goal with
    | |- context [String.eqb ?a k] =>
        let E := fresh "E" in
        destruct (String.eqb a k) eqn:E;
        [apply String.eqb_eq in E; exfalso; apply Hk; tauto|]
    end.
    reflexivity. }
  do 6 (split; [rewrite !dict_get_fold, last_item_app; reflexivity|]).
  split; [|exact Hother].
  apply Hother. unfold own_keys. cbn [In].
  intros [H|[H|[H|[H|[H|[H|[]]]]]]]; discriminate H.
Qed.
End ConfigFacts.

(** ** The further properties at concrete inputs *)

Section MoreInstances.
Import MinibatchDiscrimination.

Lemma clip_weights_tighter_witness :
  (1 <= 2)%R /\
  clip_weights (clip_weights small_model 2) 1 = clip_weights small_model 1.
Proof.
  split; [lra|]. apply (@clip_weights_tighter small_model 1 2). lra.
Defined.

Lemma clip_weights_looser_witness :
  (0 <= 1 <= 2)%R /\
  clip_weights (clip_weights small_model 1) 2 = clip_weights small_model 1.
Proof.
  split; [lra|]. apply (@clip_weights_looser small_model 1 2). lra.
Defined.

Lemma clip_weights_negative_float_witness :
  SFltb (SFopp tenth) F32.zero = true /\
  Forall2 (fun l l' =>
    Forall2 (fun w w' =>
      shape w' = shape w /\
      Forall2 (fun v v' =>
                 if F32.is_nan v then v' = F32.nan
                 else v' = F32.of_float (SFopp tenth))
              (data w) (data w'))
      (F32.weights l) (F32.weights l'))
    (F32.layers float_model)
    (F32.layers (F32.clip_weights float_model (SFopp tenth))).
Proof.
  split; [reflexivity|].
  apply (@clip_weights_negative_float float_model (SFopp tenth)).
  reflexivity.
Defined.

Lemma collapsed_rows (exp_finite : bool -> positive -> Z -> spec_float)
    (n d : nat) :
  n < 2 -> d < 3 ->
  F32.get exp_finite collapsed_batch [n; d]
  = F32.get exp_finite collapsed_batch [0; d].
Proof.
  intros Hn Hd.
  destruct n as [|[|n]], d as [|[|[|d]]]; try lia; reflexivity.
Defined.

Lemma collapsed_self_difference
    (exp_finite : bool -> positive -> Z -> spec_float) (k c : nat) :
  k < 1 -> c < 1 ->
  SFabs (F32.sub
           (F32.activation exp_finite collapsed_batch doubling_weights 0 k c)
           (F32.activation exp_finite collapsed_batch doubling_weights 0 k c))
  = F32.zero.
Proof.
  intros Hk Hc. destruct k as [|k], c as [|c]; try lia. reflexivity.
Defined.

Lemma call_collapsed_batch_ones_witness :
  built doubling_layer doubling_weights 1 3 1 /\
  shape collapsed_batch = [2; 3] /\ 1 <= 1 /\ 1 <= 1 /\
  forall exp_finite,
    (forall n d, n < 2 -> d < 3 ->
       F32.get exp_finite collapsed_batch [n; d]
       = F32.get exp_finite collapsed_batch [0; d]) /\
    F32.add F32.zero F32.zero = F32.zero /\
    (forall k c, k < 1 -> c < 1 ->
       SFabs (F32.sub
                (F32.activation exp_finite collapsed_batch doubling_weights
                   0 k c)
                (F32.activation exp_finite collapsed_batch doubling_weights
                   0 k c))
       = F32.zero) /\
    exists out,
      F32.call exp_finite doubling_layer collapsed_batch = Ok out /\
      shape out = [2; 1] /\
      forall n k, n < 2 -> k < 1 ->
        F32.get exp_finite out [n; k]
        = @sum_upto spec_float (F32.scalar exp_finite) 2
            (fun _ => @unit_term spec_float (F32.scalar exp_finite)).
Proof.
  split; [exact doubling_built|]. split; [reflexivity|]. split; [lia|].
  split; [lia|]. intros exp_finite.
  split; [exact (collapsed_rows exp_finite)|]. split; [reflexivity|].
  split; [exact (collapsed_self_difference exp_finite)|].
  apply (@call_collapsed_batch_ones spec_float (F32.scalar exp_finite)
           doubling_layer collapsed_batch doubling_weights 2 3 1 1);
    [exact doubling_built | reflexivity | lia | lia
    | exact (collapsed_rows exp_finite) | reflexivity
    | exact (collapsed_self_difference exp_finite)].
Defined.

Lemma collapsed_finite (exp_finite : bool -> positive -> Z -> spec_float)
    (n k c : nat) :
  n < 2 -> k < 1 -> c < 1 ->
  F32.is_finite
    (F32.activation exp_finite collapsed_batch doubling_weights n k c)
  = true.
Proof.
  intros Hn Hk Hc.
  destruct n as [|[|n]], k as [|k], c as [|c]; try lia; reflexivity.
Defined.

Lemma distances_zero_diagonal_witness :
  built doubling_layer doubling_weights 1 3 1 /\
  shape collapsed_batch = [2; 3] /\ 1 <= 1 /\ 1 <= 1 /\
  forall exp_finite,
    (forall n k c, n < 2 -> k < 1 -> c < 1 ->
       F32.is_finite
         (F32.activation exp_finite collapsed_batch doubling_weights n k c)
       = true) /\
    exists ad,
      F32.distances exp_finite doubling_layer collapsed_batch = Ok ad /\
      shape ad = [2; 1; 2] /\
      forall n k, n < 2 -> k < 1 ->
        F32.get exp_finite ad [n; k; n] = F32.zero.
Proof.
  split; [exact doubling_built|]. split; [reflexivity|]. split; [lia|].
  split; [lia|]. intros exp_finite.
  split; [exact (collapsed_finite exp_finite)|].
  apply (@distances_zero_diagonal exp_finite doubling_layer collapsed_batch
           doubling_weights 2 3 1 1);
    [exact doubling_built | reflexivity | lia | lia
    | exact (collapsed_finite exp_finite)].
Defined.

Lemma call_not_nan_witness :
  built doubling_layer doubling_weights 1 3 1 /\
  shape collapsed_batch = [2; 3] /\ 1 <= 1 /\ 1 <= 1 /\
  (forall n k c, n < 2 -> k < 1 -> c < 1 ->
     F32.is_finite
       (F32.activation underflow_exp collapsed_batch doubling_weights n k c)
     = true) /\
  (forall m e, F32.nonneg (underflow_exp true m e)) /\
  exists out,
    F32.call underflow_exp doubling_layer collapsed_batch = Ok out /\
    shape out = [2; 1] /\
    forall n k, n < 2 -> k < 1 ->
      F32.nonneg (F32.get underflow_exp out [n; k]) /\
      F32.is_nan (F32.get underflow_exp out [n; k]) = false.
Proof.
  split; [exact doubling_built|]. split; [reflexivity|]. split; [lia|].
  split; [lia|]. split; [exact (collapsed_finite underflow_exp)|].
  split; [intros m e; constructor|].
  apply (@call_not_nan underflow_exp doubling_layer collapsed_batch
           doubling_weights 2 3 1 1);
    [exact doubling_built | reflexivity | lia | lia
    | exact (collapsed_finite underflow_exp) | intros m e; constructor].
Defined.

Lemma split_data_zero_timesteps_diverges_witness :
  shape wide_dataset = [2; 5] /\ split_data 7 wide_dataset 0 = None.
Proof.
  split; [reflexivity|].
  apply (@split_data_zero_timesteps_diverges R _ 7 wide_dataset 2 4).
  reflexivity.
Defined.

Lemma split_data_idempotent_witness :
  shape wide_dataset = [2; 5] /\ wf wide_dataset /\ 1 <= 2 /\ 2 <= 5 /\
  5 / 2 < 3 /\
  exists out,
    split_data 3 wide_dataset 2 = Some (Ok (Some out)) /\
    forall fuel', split_data (S fuel') out 2 = Some (Ok (Some out)).
Proof.
  split; [reflexivity|]. split; [reflexivity|]. split; [lia|].
  split; [lia|]. split; [simpl; lia|].
  apply (@split_data_idempotent R _ wide_dataset 2 5 2 3);
    [reflexivity | reflexivity | lia | lia | simpl; lia].
Defined.

Lemma split_data_entry_count_witness :
  shape wide_dataset = [2; 5] /\ wf wide_dataset /\ 1 <= 2 /\ 2 <= 5 /\
  5 / 2 < 3 /\
  exists out,
    split_data 3 wide_dataset 2 = Some (Ok (Some out)) /\
    length (data out) + 2 * (5 mod 2) = length (data wide_dataset).
Proof.
  split; [reflexivity|]. split; [reflexivity|]. split; [lia|].
  split; [lia|]. split; [simpl; lia|].
  apply (@split_data_entry_count R _ wide_dataset 2 5 2 3);
    [reflexivity | reflexivity | lia | lia | simpl; lia].
Defined.

Lemma call_feature_mismatch_witness :
  built scenario_layer scenario_weights 1 3 1 /\
  shape narrow_batch = [2; 2] /\ 2 <> 3 /\
  call scenario_layer narrow_batch = Raise ValueError.
Proof.
  split; [exact scenario_built|]. split; [reflexivity|]. split; [lia|].
  apply (@call_feature_mismatch R _ scenario_layer narrow_batch
           scenario_weights 2 3 2 1 1);
    [exact scenario_built | reflexivity | lia].
Defined.

Lemma init_build_call_witness :
  1 <= 1 /\ 1 <= 1 /\
  scenario_add_weight [Some 1%Z; Some 3%Z; Some 1%Z] = Ok scenario_weights /\
  shape scenario_weights = [1; 3; 1] /\ shape scenario_batch = [2; 3] /\
  (l0 <- __init__ 1 1 None ;;
   l <- build_layer scenario_add_weight l0 [None; Some 3%Z] ;;
   call l scenario_batch) = Ok (reference scenario_batch scenario_weights).
Proof.
  split; [lia|]. split; [lia|]. split; [reflexivity|].
  split; [reflexivity|]. split; [reflexivity|].
  apply (@init_build_call R _ scenario_add_weight scenario_batch
           scenario_weights None None 2 3 1 1);
    [lia | lia | reflexivity | reflexivity | reflexivity].
Defined.

Lemma wasserstein_loss_flip_witness :
  shape real_labels = shape critic_scores /\ wf real_labels /\
  exists l,
    wasserstein_loss real_labels critic_scores = Ok (mkTensor [] [l]) /\
    wasserstein_loss (K.tneg real_labels) critic_scores
      = Ok (mkTensor [] [(- l)%R]).
Proof.
  split; [reflexivity|]. split; [reflexivity|].
  apply (@wasserstein_loss_flip real_labels critic_scores);
    reflexivity.
Defined.

Lemma real_labels_ones (v : R) : In v (data real_labels) -> v = 1%R.
Proof.
  intros [H|[H|[]]]; symmetry; exact H.
Defined.

Lemma wasserstein_loss_ones_witness :
  shape real_labels = shape critic_scores /\ wf real_labels /\
  wf critic_scores /\
  (forall v, In v (data real_labels) -> v = 1%R) /\
  wasserstein_loss real_labels critic_scores = Ok (K_mean critic_scores).
Proof.
  split; [reflexivity|]. split; [reflexivity|]. split; [reflexivity|].
  split; [exact real_labels_ones|].
  apply (@wasserstein_loss_ones real_labels critic_scores);
    [reflexivity | reflexivity | reflexivity | exact real_labels_ones].
Defined.

Lemma save_samples_curves_run_witness :
  1 <= 2 /\ 1 <= 2 /\ length [3] <= 2 /\
  shape four_curves = 4 :: [3] /\ 2 * 2 <= 4 /\
  snd (save_samples four_curves 2 2 [plt.generator] false) = Ok tt /\
  saved_files (fst (save_samples four_curves 2 2 [plt.generator] false))
    = [plt.generator] /\
  subplot_indices (fst (save_samples four_curves 2 2 [plt.generator] false))
    = seq 1 (2 * 2) /\
  Forall2 (fun p c => sample_curve four_curves p = Ok c)
          (seq 0 (2 * 2))
          (drawn (fst (save_samples four_curves 2 2 [plt.generator] false))).
Proof.
  split; [lia|]. split; [lia|]. split; [simpl; lia|].
  split; [reflexivity|]. split; [simpl; lia|].
  apply (@save_samples_curves_run four_curves 4 [3] 2 2 [plt.generator]);
    [lia | lia | simpl; lia | reflexivity | simpl; lia].
Defined.

Lemma save_samples_too_few_witness :
  1 <= 2 /\ 1 <= 2 /\ length [2] <= 2 /\
  shape three_curves = 3 :: [2] /\ 3 < 2 * 2 /\
  snd (save_samples three_curves 2 2 [plt.generator] false)
    = Raise IndexError /\
  saved_files (fst (save_samples three_curves 2 2 [plt.generator] false))
    = [] /\
  subplot_indices (fst (save_samples three_curves 2 2 [plt.generator] false))
    = seq 1 (3 + 1) /\
  Forall2 (fun p c => sample_curve three_curves p = Ok c)
          (seq 0 3)
          (drawn (fst (save_samples three_curves 2 2 [plt.generator] false))).
Proof.
  split; [lia|]. split; [lia|]. split; [simpl; lia|].
  split; [reflexivity|]. split; [simpl; lia|].
  apply (@save_samples_too_few three_curves 3 [2] 2 2 [plt.generator]);
    [lia | lia | simpl; lia | reflexivity | simpl; lia].
Defined.

Lemma save_losses_too_few_witness :
  length [[1; 2]%R] < 2 /\
  snd (save_losses [[1; 2]%R] plt.generator) = Raise IndexError /\
  saved_files (fst (save_losses [[1; 2]%R] plt.generator)) = [].
Proof.
  split; [simpl; lia|].
  apply (@save_losses_too_few [[1; 2]%R] plt.generator). simpl. lia.
Defined.

Lemma white_resize_grey (img : tensor R) :
  exists r,
    white_resize img (1, 1) = Ok r /\ shape r = [1; 1] /\ wf r /\
    Forall (fun v => (0 <= v <= 255)%R) (data r).
Proof.
  eexists. split; [reflexivity|]. split; [reflexivity|].
  split; [reflexivity|]. constructor; [lra | constructor].
Defined.

Lemma load_resized_mnist_range_witness :
  shape blank_train = mnist_rows :: [1; 1] /\
  (forall img, exists r,
      white_resize img (1, 1) = Ok r /\ shape r = [1; 1] /\ wf r /\
      Forall (fun v => (0 <= v <= 255)%R) (data r)) /\
  exists out,
    load_resized_mnist blank_train white_resize (fun _ => 7%R) 1 = Ok out /\
    shape out = [mnist_rows; 1 * 1] /\ wf out /\
    Forall (fun v => (-1 <= v <= 1)%R) (data out).
Proof.
  split; [reflexivity|]. split; [exact white_resize_grey|].
  apply (@load_resized_mnist_range blank_train white_resize (fun _ => 7%R) 1
           [1; 1]);
    [reflexivity | exact white_resize_grey].
Defined.
End MoreInstances.
